(** * pfand: fan speed controller (src/pfand.c)

    A shallow embedding of the daemon's three functions, [getTemp],
    [setFanSpeed] and [main], and the properties of its control loop.

    - C [int] values are mathematical integers ([Z]).  The program does no
      [int] arithmetic that could overflow: the run-on counter is only
      decremented while positive, and a conversion to [int] is checked
      against the 32-bit range.
    - C [float] and [double] values are IEEE 754 binary32 and binary64
      numbers, taken from the Standard Library's [SpecFloat]; every
      operation is performed in the precision of its C type.
    - The file system, the process environment and the passing of time are
      an explicit environment and an event trace, threaded by a small
      monad. *)

From Stdlib Require Import ZArith Lia Bool List String Ascii QArith Qround.
From Stdlib Require Import Floats.SpecFloat.
From Stdlib Require DecimalString DecimalPos DecimalZ.
Import ListNotations.

Local Open Scope Z_scope.

(** ** Machine numbers *)

Module C.

Definition INT_MIN : Z := - 2 ^ 31.
Definition INT_MAX : Z := 2 ^ 31 - 1.

Definition in_int (z : Z) : Prop := INT_MIN <= z <= INT_MAX.

(** binary32 and binary64 share one carrier and differ by the precision the
    operations round to. *)
Definition float := spec_float.
Definition double := spec_float.

Definition fprec : Z := 24.
Definition femax : Z := 128.
Definition dprec : Z := 53.
Definition demax : Z := 1024.

(** Conversions [(float) i] and [(double) i] of an [int]. *)
Definition float_of_int (i : Z) : float := binary_normalize fprec femax i 0 false.
Definition double_of_int (i : Z) : double := binary_normalize dprec demax i 0 false.

(** Promotion [float -> double] (exact) and the rounding conversion back. *)
Definition double_of_float (x : float) : double :=
  match x with
  | S754_finite s m e => binary_round dprec demax s m e
  | _ => x
  end.

Definition float_of_double (x : double) : float :=
  match x with
  | S754_finite s m e => binary_round fprec femax s m e
  | _ => x
  end.

(** The signed mantissa of a finite number. *)
Definition smant (s : bool) (m : positive) : Z := cond_Zopp s (Zpos m).

(** [floor] of <math.h> on a [double]. *)
Definition floor (x : double) : double :=
  match x with
  | S754_finite s m e =>
      if 0 <=? e then x
      else binary_normalize dprec demax (Z.shiftr (smant s m) (- e)) 0 s
  | _ => x
  end.

(** Conversion of a [double] to [int]: the value truncated toward zero.
    [None] where C leaves the conversion undefined (NaN, infinities, a
    value outside the range of [int]). *)
Definition int_of_double (x : double) : option Z :=
  match x with
  | S754_zero _ => Some 0
  | S754_finite s m e =>
      let v := if 0 <=? e then Z.shiftl (smant s m) e
               else Z.quot (smant s m) (2 ^ (- e)) in
      if (INT_MIN <=? v) && (v <=? INT_MAX) then Some v else None
  | _ => None
  end.

(** The rational a finite floating-point datum denotes: its signed
    mantissa times two to its exponent. *)
Definition finite_to_Q (s : bool) (m : positive) (e : Z) : Q :=
  if 0 <=? e then inject_Z (Z.shiftl (smant s m) e)
  else Qmake (smant s m) (Z.to_pos (2 ^ (- e))).

Definition to_Q (x : spec_float) : option Q :=
  match x with
  | S754_zero _ => Some 0%Q
  | S754_finite s m e => Some (finite_to_Q s m e)
  | _ => None
  end.

End C.

Import C.

(** ** The constants of pfand.c *)

(** The three pwm constants are [double] literals with integer values;
    [minPwm], [maxPwm] and [kickPwm] name those values. *)
Definition minPwm : Z := 50.
Definition maxPwm : Z := 100.
Definition kickPwm : Z := 70.

Definition MIN_PWM : double := double_of_int minPwm.     (* #define MIN_PWM 50.0 *)
Definition MAX_PWM : double := double_of_int maxPwm.     (* #define MAX_PWM 100.0 *)
Definition KICK_PWM : double := double_of_int kickPwm.   (* #define KICK_PWM 70.0 *)
Definition KICK_TIME : Z := 500000.
Definition LOW_TEMP : Z := 55.
Definition HIGH_TEMP : Z := 75.
Definition LOOPTIME : Z := 2.
Definition RUNONTIME : Z := 30.
Definition RUNONLOOPS : Z := RUNONTIME / LOOPTIME.

Definition EXIT_SUCCESS : Z := 0.
Definition EXIT_FAILURE : Z := 1.

(** ** The world outside the process *)

(** What an [fopen] of the sensor file finds. *)
Inductive sensor_file :=
| Unreadable                       (* fopen returns NULL *)
| Readable (content : string).

(** Everything the program asks of its environment.  The two device files
    may differ from one [fopen] to the next, so each is indexed by the
    number of earlier opens. *)
Record env := mkEnv {
  e_euid : Z;                      (* geteuid() *)
  e_fork : Z;                      (* fork(), as seen by the process modelled *)
  e_log : bool;                    (* fopen of /var/log/pfan.log succeeds *)
  e_setsid : Z;                    (* setsid() *)
  e_chdir : Z;                     (* chdir("/") *)
  e_temp : nat -> sensor_file;     (* the k-th fopen of temp_label *)
  e_pwm : nat -> bool              (* the k-th fopen of pwm.0 succeeds *)
}.

(** How many times each device file has been opened so far. *)
Record cursor := mkCursor { reads : nat; opens : nat }.

Inductive stream := stderr | flog | pfile.

(** What the process does that can be seen from outside.  A [printf]-style
    write is kept as its format, spelled as in the source, and its integer
    arguments.  [Call_setFanSpeed] marks the entry into [setFanSpeed], so
    that a command is on record even when the device cannot be opened. *)
Inductive event :=
| Call_setFanSpeed (duty : Z)
| Fprintf (s : stream) (fmt : string) (args : list Z)
| Fflush (s : stream)
| Umask (mask : Z)
| Close (fd : Z)
| Usleep (us : Z)
| Sleep (sec : Z).

(** ** A monad for the program: environment, cursor, trace, exit *)

Inductive result (A : Type) :=
| Ret (a : A) (c : cursor) (evs : list event)   (* returned normally *)
| Exit (code : Z) (evs : list event)            (* called exit(code) *)
| Undef (evs : list event).                     (* undefined behaviour *)

Arguments Ret {A} a c evs.
Arguments Exit {A} code evs.
Arguments Undef {A} evs.

Definition M (A : Type) : Type := env -> cursor -> result A.

Definition ret {A} (a : A) : M A := fun _ c => Ret a c [].

Definition bind {A B} (m : M A) (f : A -> M B) : M B :=
  fun en c =>
    match m en c with
    | Ret a c1 evs1 =>
        match f a en c1 with
        | Ret b c2 evs2 => Ret b c2 (evs1 ++ evs2)
        | Exit code evs2 => Exit code (evs1 ++ evs2)
        | Undef evs2 => Undef (evs1 ++ evs2)
        end
    | Exit code evs1 => Exit code evs1
    | Undef evs1 => Undef evs1
    end.

Declare Scope prog_scope.
Delimit Scope prog_scope with prog.
Notation "x <- m ;; k" := (bind m (fun x => k))
  (at level 61, m at next level, right associativity) : prog_scope.
Notation "m ;; k" := (bind m (fun _ => k))
  (at level 61, right associativity) : prog_scope.
Local Open Scope prog_scope.

Definition emit (e : event) : M unit := fun _ c => Ret tt c [e].
Definition exit {A} (code : Z) : M A := fun _ _ => Exit code [].
Definition ask {A} (f : env -> A) : M A := fun en c => Ret (f en) c [].

(** A conversion to [int] that C leaves undefined stops the program. *)
Definition to_int (x : double) : M Z :=
  fun _ c => match int_of_double x with
             | Some i => Ret i c []
             | None => Undef []
             end.

Definition fprintf (s : stream) (fmt : string) (args : list Z) : M unit :=
  emit (Fprintf s fmt args).

Definition fopen_temp_label : M sensor_file :=
  fun en c => Ret (e_temp en (reads c)) (mkCursor (S (reads c)) (opens c)) [].

Definition fopen_pwm : M bool :=
  fun en c => Ret (e_pwm en (opens c)) (mkCursor (reads c) (S (opens c))) [].

(** ** [fscanf(tfile, "%d", &temp)]

    The C library's conversion, on the whole content of the file: white
    space is skipped, then an optional sign and the longest run of decimal
    digits are taken.  Nothing left to read is an input failure, anything
    else that is not a number a matching failure. *)

Inductive scan :=
| Converted (temp : Z)       (* returns 1, [temp] assigned *)
| Matching_failure           (* returns 0 *)
| Input_failure.             (* returns EOF *)

Definition scan_ret (r : scan) : Z :=
  match r with
  | Converted _ => 1
  | Matching_failure => 0
  | Input_failure => -1
  end.

Definition isspace (c : ascii) : bool :=
  let n := N_of_ascii c in
  ((n =? 32) || ((9 <=? n) && (n <=? 13)))%N.

Definition digit_of (c : ascii) : option Z :=
  let n := Z.of_N (N_of_ascii c) in
  if (48 <=? n) && (n <=? 57) then Some (n - 48) else None.

Fixpoint skip_space (s : string) : string :=
  match s with
  | String c s' => if isspace c then skip_space s' else s
  | EmptyString => s
  end.

(** The longest run of decimal digits at the head of [s], as a number;
    [acc] is [None] until a digit has been seen. *)
Fixpoint scan_digits (s : string) (acc : option Z) : option Z :=
  match s with
  | String c s' =>
      match digit_of c with
      | Some d => scan_digits s' (Some (10 * match acc with Some a => a | None => 0 end + d))
      | None => acc
      end
  | EmptyString => acc
  end.

(** C does not say what is stored when the number does not fit an [int].
    The library the daemon runs on converts the digits with strtol into a
    64-bit [long], which stops at the bounds of [long], and stores the low
    32 bits of that.  A number that fits is stored as it is, and nothing
    below depends on more than that and on the stored value being an
    [int]. *)
Definition LONG_MIN : Z := - 2 ^ 63.
Definition LONG_MAX : Z := 2 ^ 63 - 1.

Definition wrap_int (z : Z) : Z := (z + 2 ^ 31) mod 2 ^ 32 - 2 ^ 31.

Definition stored_int (z : Z) : Z :=
  wrap_int (Z.max LONG_MIN (Z.min LONG_MAX z)).

Definition fscanf_d (content : string) : scan :=
  match skip_space content with
  | EmptyString => Input_failure
  | String c rest =>
      let '(neg, body) :=
        if Ascii.eqb c "-" then (true, rest)
        else if Ascii.eqb c "+" then (false, rest)
        else (false, String c rest) in
      match scan_digits body None with
      | Some n => Converted (stored_int (if neg then - n else n))
      | None => Matching_failure
      end
  end.

(** ** The three functions of the source

    [fclose] has no effect that the trace records and is left out. *)

(** [float getTemp()]: [fscanf] returns 1 exactly when it converted a
    number. *)
Definition getTemp : M float :=
  tfile <- fopen_temp_label ;;
  match tfile with
  | Unreadable =>
      fprintf stderr "failed to open temperature file\n" [] ;;
      ret (float_of_int 0)
  | Readable content =>
      let r := fscanf_d content in
      match r with
      | Converted temp => ret (float_of_int temp)      (* r == 1 *)
      | _ => ret (float_of_int 0)
      end
  end.

(** [void setFanSpeed(int duty)] *)
Definition setFanSpeed (duty : Z) : M unit :=
  emit (Call_setFanSpeed duty) ;;
  pfile_ok <- fopen_pwm ;;
  if negb pfile_ok then
    fprintf stderr "failed to open pwm.0 for writing\n" []
  else
    fprintf pfile "50000,%d\n" [duty].

(** The two variables that live across iterations of the control loop. *)
Record ctrl := mkCtrl { runOn : Z; prevP : Z }.

(** Lines 167-198: the pwm value for this temperature, and the run-on
    counter after it. *)
Definition calc_pwm (temp : float) (runOn : Z) : M (Z * Z) :=
  if SFltb temp (float_of_int LOW_TEMP) then
    if 0 <? runOn then
      p <- to_int MIN_PWM ;;
      ret (p, runOn - 1)
    else
      ret (0, runOn)
  else if SFltb (float_of_int HIGH_TEMP) temp then
    p <- to_int MAX_PWM ;;
    ret (p, runOn)
  else
    let dt : float := SFsub fprec femax temp (float_of_int LOW_TEMP) in
    let pRange : float := float_of_double (SFsub dprec demax MAX_PWM MIN_PWM) in
    let tRange : float := float_of_int (HIGH_TEMP - LOW_TEMP) in
    p <- to_int (floor (SFadd dprec demax
                         (double_of_float
                            (SFdiv fprec femax (SFmul fprec femax pRange dt) tRange))
                         MIN_PWM)) ;;
    p <- (if SFltb MAX_PWM (double_of_int p) then
            fprintf stderr "PWM calculation wrong, p is %d\n" [p] ;;
            to_int MAX_PWM
          else ret p) ;;
    p <- (if SFltb (double_of_int p) MIN_PWM then
            fprintf stderr "PWM calculation wrong, p is %d\n" [p] ;;
            to_int MIN_PWM
          else ret p) ;;
    ret (p, RUNONLOOPS).

(** Lines 167-215: one iteration of the control loop once the temperature
    has been read. *)
Definition step (temp : float) (st : ctrl) : M ctrl :=
  pr <- calc_pwm temp (runOn st) ;;
  let '(p, runOn') := pr in
  (if (0 <? p) && (prevP st =? 0) then
     kick <- to_int KICK_PWM ;;
     setFanSpeed kick ;;
     emit (Usleep KICK_TIME)
   else ret tt) ;;
  setFanSpeed p ;;
  emit (Sleep LOOPTIME) ;;
  ret (mkCtrl runOn' p).

(** Lines 163-215: one iteration of the control loop. *)
Definition tick (st : ctrl) : M ctrl :=
  temp <- getTemp ;;
  step temp st.

(** The first [n] iterations of [for(;;)]. *)
Fixpoint control_loop (n : nat) (st : ctrl) : M ctrl :=
  match n with
  | O => ret st
  | S n' =>
      st' <- tick st ;;
      control_loop n' st'
  end.

(** [void main()], built without DEBUG, followed through [n] iterations of
    its control loop. *)
Definition main (n : nat) : M ctrl :=
  euid <- ask e_euid ;;
  if negb (euid =? 0) then
    fprintf stderr "Must be run as root\n" [] ;;
    exit 1
  else
  pid <- ask e_fork ;;
  if pid <? 0 then exit EXIT_FAILURE else
  if 0 <? pid then exit EXIT_SUCCESS else
  emit (Umask 0) ;;
  flog_ok <- ask e_log ;;
  if negb flog_ok then
    fprintf stderr "failed to open log file\n" [] ;;
    exit EXIT_FAILURE
  else
  fprintf flog "pfand started\n" [] ;;
  emit (Fflush flog) ;;
  t <- getTemp ;;
  if SFeqb (double_of_float t) (S754_zero false) then
    fprintf flog "unable to read the temperature (or it's zero degrees?), quitting\n" [] ;;
    exit EXIT_FAILURE
  else
  sid <- ask e_setsid ;;
  if sid <? 0 then exit EXIT_FAILURE else
  cd <- ask e_chdir ;;
  if cd <? 0 then exit EXIT_FAILURE else
  emit (Close 0) ;;
  emit (Close 1) ;;
  emit (Close 2) ;;
  warm <- to_int MAX_PWM ;;
  setFanSpeed warm ;;
  emit (Sleep 5) ;;
  control_loop n (mkCtrl 0 0).


(** ** Reading results and traces *)

Definition events {A} (r : result A) : list event :=
  match r with
  | Ret _ _ evs => evs
  | Exit _ evs => evs
  | Undef evs => evs
  end.

(** The duty cycles [setFanSpeed] was called with, in order. *)
Fixpoint duties (evs : list event) : list Z :=
  match evs with
  | Call_setFanSpeed d :: evs' => d :: duties evs'
  | _ :: evs' => duties evs'
  | [] => []
  end.

(** The calls of [setFanSpeed] together with the [usleep]s between them. *)
Fixpoint sink_calls (evs : list event) : list event :=
  match evs with
  | Call_setFanSpeed d :: evs' => Call_setFanSpeed d :: sink_calls evs'
  | Usleep us :: evs' => Usleep us :: sink_calls evs'
  | _ :: evs' => sink_calls evs'
  | [] => []
  end.

(** The duty cycles that were written to pwm.0, in order. *)
Fixpoint pwm_writes (evs : list event) : list Z :=
  match evs with
  | Fprintf pfile _ args :: evs' => args ++ pwm_writes evs'
  | _ :: evs' => pwm_writes evs'
  | [] => []
  end.

(** The trace of one call [setFanSpeed(duty)], by whether pwm.0 opens. *)
Definition fan_events (pfile_ok : bool) (duty : Z) : list event :=
  [Call_setFanSpeed duty;
   if pfile_ok then Fprintf pfile "50000,%d\n" [duty]
   else Fprintf stderr "failed to open pwm.0 for writing\n" []].

(** A duty cycle the fan may be driven with. *)
Definition duty_ok (d : Z) : Prop := d = 0 \/ minPwm <= d <= maxPwm.

(** A floating-point datum that is a whole number. *)
Definition whole (x : spec_float) : Prop :=
  exists (q : Q) (n : Z), to_Q x = Some q /\ Qeq q (inject_Z n).

(** The interpolation as the specification words it, over the rationals:
    floor (minPwm + (maxPwm - minPwm) * (t - lowTempC) / (highTempC - lowTempC)). *)
Definition spec_duty (t : Z) : Z :=
  Qfloor (inject_Z minPwm
          + inject_Z (maxPwm - minPwm) * inject_Z (t - LOW_TEMP)
            / inject_Z (HIGH_TEMP - LOW_TEMP))%Q.

(** The same environment with another pwm device. *)
Definition with_pwm (en : env) (pwm : nat -> bool) : env :=
  mkEnv (e_euid en) (e_fork en) (e_log en) (e_setsid en) (e_chdir en) (e_temp en) pwm.

(** A root process, past its fork, whose sensor file goes through [temps]
    (and cannot be read after them). *)
Definition daemon_env (temps : list sensor_file) (pwm : nat -> bool) : env :=
  mkEnv 0 0 true 1 0 (fun k => nth k temps Unreadable) pwm.

Definition start : cursor := mkCursor 0 0.

(** ** The sensor as the controller sees it *)

(** A read that does not deliver a temperature: the file does not open, or
    [fscanf] does not return 1. *)
Definition sensor_fails (f : sensor_file) : Prop :=
  match f with
  | Unreadable => True
  | Readable content => scan_ret (fscanf_d content) <> 1
  end.

(** The integer whose float [getTemp] returns. *)
Definition sensor_value (f : sensor_file) : Z :=
  match f with
  | Unreadable => 0
  | Readable content =>
      match fscanf_d content with
      | Converted temp => temp
      | _ => 0
      end
  end.

(** What [getTemp] prints. *)
Definition sensor_events (f : sensor_file) : list event :=
  match f with
  | Unreadable => [Fprintf stderr "failed to open temperature file\n" []]
  | Readable _ => []
  end.

(** [calc_pwm] read over the integers: the pwm value and run-on counter
    for a temperature of [z] whole degrees. *)
Definition pwm_int (z runOn : Z) : Z * Z :=
  if z <? LOW_TEMP then
    if 0 <? runOn then (minPwm, runOn - 1) else (0, runOn)
  else if HIGH_TEMP <? z then (maxPwm, runOn)
  else (minPwm + 5 * (z - LOW_TEMP) / 2, RUNONLOOPS).

(** A run that did not end in undefined behaviour. *)
Definition defined {A} (r : result A) : Prop :=
  match r with
  | Undef _ => False
  | _ => True
  end.

(** A run that is defined and commands only admissible duty cycles. *)
Definition safe {A} (r : result A) : Prop :=
  defined r /\ Forall duty_ok (duties (events r)).

(** The events of the part of an iteration that drives the fan, when [k]
    opens of pwm.0 came before: the kick, if any, then the pwm value. *)
Definition drive_events (en : env) (k : nat) (prev p : Z) : list event :=
  if (0 <? p) && (prev =? 0) then
    (fan_events (e_pwm en k) kickPwm ++ [Usleep KICK_TIME])
      ++ fan_events (e_pwm en (S k)) p ++ [Sleep LOOPTIME]
  else fan_events (e_pwm en k) p ++ [Sleep LOOPTIME].

(** How many times that part opens pwm.0. *)
Definition drive_opens (prev p : Z) : nat :=
  if (0 <? p) && (prev =? 0) then 2%nat else 1%nat.

(** ** Further vocabulary: startup, stderr, run-on, numerals *)

(** A result with events put in front of its own. *)
Definition prepend {A} (evs0 : list event) (r : result A) : result A :=
  match r with
  | Ret a c evs => Ret a c (evs0 ++ evs)
  | Exit code evs => Exit code (evs0 ++ evs)
  | Undef evs => Undef (evs0 ++ evs)
  end.

(** The conditions [main] tests before its control loop, in its order:
    root, child of the fork, log file open, a temperature that is not 0,
    [setsid] and [chdir] not negative. *)
Definition startup_ok (en : env) (c : cursor) : bool :=
  (e_euid en =? 0) && (e_fork en =? 0) && e_log en
  && negb (sensor_value (e_temp en (reads c)) =? 0)
  && (0 <=? e_setsid en) && (0 <=? e_chdir en).

(** The trace of a startup that passes them all, warm-up pulse included. *)
Definition startup_events (en : env) (c : cursor) : list event :=
  [Umask 0; Fprintf flog "pfand started\n" []; Fflush flog]
  ++ sensor_events (e_temp en (reads c))
  ++ [Close 0; Close 1; Close 2]
  ++ fan_events (e_pwm en (opens c)) maxPwm
  ++ [Sleep 5].

(** The two loop variables within their ranges. *)
Definition ctrl_ok (st : ctrl) : Prop :=
  0 <= runOn st <= RUNONLOOPS /\ duty_ok (prevP st).

(** A list of duties in which a positive duty that follows 0 (or [prev],
    for the first) is the kick. *)
Fixpoint kicked (prev : Z) (ds : list Z) : Prop :=
  match ds with
  | [] => True
  | d :: ds' => (prev = 0 -> 0 < d -> d = kickPwm) /\ kicked d ds'
  end.

(** The messages for stderr other than the one of the clamp in the
    interpolation. *)
Definition stderr_known (e : event) : Prop :=
  match e with
  | Fprintf stderr fmt _ =>
      In fmt ["Must be run as root\n"; "failed to open log file\n";
              "failed to open temperature file\n";
              "failed to open pwm.0 for writing\n"]%string
  | _ => True
  end.

(** The next [n] reads of the sensor are all below [LOW_TEMP]. *)
Definition cold_for (en : env) (c : cursor) (n : nat) : Prop :=
  forall i, (reads c <= i < reads c + n)%nat ->
            sensor_value (e_temp en i) < LOW_TEMP.

Fixpoint all_space (s : string) : bool :=
  match s with
  | EmptyString => true
  | String ch s' => isspace ch && all_space s'
  end.

(** Nothing, or something that does not start with a digit. *)
Definition ends_number (s : string) : bool :=
  match s with
  | EmptyString => true
  | String ch _ => match digit_of ch with None => true | Some _ => false end
  end.

(** A decimal numeral as the Standard Library has it: its digits, and its
    text (a minus sign if negative, then the digits). *)
Definition digits_of (d : Decimal.int) : Decimal.uint :=
  match d with
  | Decimal.Pos u => u
  | Decimal.Neg u => u
  end.

Definition numeral (d : Decimal.int) : string :=
  DecimalString.NilEmpty.string_of_int d.

(** ** What reaches a log

    A [fprintf] on stderr is a write on descriptor 2, and fails once
    [close(STDERR_FILENO)] has been called: no later [fopen] brings
    descriptor 2 back, since each takes the lowest free descriptor, 0, and is
    closed before the next.  [open2] says whether descriptor 2 is open when
    the trace starts. *)
Fixpoint stderr_output (open2 : bool) (evs : list event) : list string :=
  match evs with
  | [] => []
  | Close fd :: evs' => stderr_output (if fd =? 2 then false else open2) evs'
  | Fprintf stderr fmt _ :: evs' =>
      if open2 then fmt :: stderr_output open2 evs' else stderr_output open2 evs'
  | _ :: evs' => stderr_output open2 evs'
  end.

(** What is appended to /var/log/pfan.log. *)
Fixpoint log_output (evs : list event) : list string :=
  match evs with
  | [] => []
  | Fprintf flog fmt _ :: evs' => fmt :: log_output evs'
  | _ :: evs' => log_output evs'
  end.

(** * Properties *)

(** ** Binary32 conversion of integers *)

(** [digits2_pos] is the bit length of a positive number. *)
Lemma digits2_pos_size p : digits2_pos p = Pos.size p.
Proof. induction p; simpl; congruence. Qed.

Lemma digits2_log2 p : Zpos (digits2_pos p) = Z.log2 (Zpos p) + 1.
Proof. rewrite digits2_pos_size. destruct p; simpl; lia. Qed.

Lemma digits2_bounds p :
  2 ^ (Zpos (digits2_pos p) - 1) <= Zpos p < 2 ^ Zpos (digits2_pos p).
Proof.
  rewrite digits2_log2.
  replace (Z.log2 (Zpos p) + 1 - 1) with (Z.log2 (Zpos p)) by lia.
  apply Z.log2_spec. lia.
Qed.

Lemma Zdigits2_unique z d :
  0 < d -> 2 ^ (d - 1) <= z < 2 ^ d -> Zdigits2 z = d.
Proof.
  intros Hd Hz.
  assert (0 < z) by (pose proof (Z.pow_pos_nonneg 2 (d - 1)); lia).
  destruct z as [| p | p]; try lia.
  simpl. rewrite digits2_log2.
  rewrite (Z.log2_unique (Zpos p) (d - 1)); try lia.
  replace (Z.succ (d - 1)) with d by lia. lia.
Qed.

(** Shifting a nonnegative mantissa right drops its low bits. *)
Lemma shr_1_m r : 0 <= shr_m r -> shr_m (shr_1 r) = Z.div2 (shr_m r).
Proof.
  destruct r as [m b1 b2]; simpl. intros H.
  destruct m as [| [q | q |] | q]; simpl; try reflexivity; lia.
Qed.

Lemma iter_shr_1_m n : forall r,
  0 <= shr_m r -> shr_m (iter_pos shr_1 n r) = Z.shiftr (shr_m r) (Zpos n).
Proof.
  assert (D : forall r, 0 <= shr_m r -> 0 <= shr_m (shr_1 r)).
  { intros r H. rewrite shr_1_m by assumption. rewrite Z.div2_nonneg. exact H. }
  assert (N : forall n r, 0 <= shr_m r ->
              shr_m (iter_pos shr_1 n r) = Z.shiftr (shr_m r) (Zpos n) ->
              0 <= shr_m (iter_pos shr_1 n r)).
  { intros k r H E. rewrite E. apply Z.shiftr_nonneg. exact H. }
  induction n as [n IH | n IH |]; intros r H; simpl iter_pos.
  - rewrite (IH (iter_pos shr_1 n (shr_1 r))), (IH (shr_1 r)), shr_1_m by auto.
    rewrite Z.div2_spec, !Z.shiftr_shiftr by lia. f_equal. lia.
  - rewrite (IH (iter_pos shr_1 n r)), (IH r) by auto.
    rewrite Z.shiftr_shiftr by lia. f_equal. lia.
  - rewrite shr_1_m by assumption. apply Z.div2_spec.
Qed.

(** Shifting a mantissa left multiplies it by a power of two. *)
Lemma iter_xO_mul p k : Zpos (Pos.iter xO p k) = Zpos p * 2 ^ Zpos k.
Proof.
  induction k as [| k IH] using Pos.peano_ind.
  - simpl. lia.
  - rewrite Pos.iter_succ, Pos2Z.inj_succ, Z.pow_succ_r by lia.
    rewrite Pos2Z.inj_xO, IH. lia.
Qed.

(** The shift that brings a mantissa down to the 24 bits of binary32. *)
Lemma shr_fexp_exact m e :
  shr_fexp fprec femax (Zpos m) e loc_Exact =
  shr (Build_shr_record (Zpos m) false false) e
      (Z.max (Zpos (digits2_pos m) - 24) (- 149 - e)).
Proof.
  unfold shr_fexp, fexp, emin, fprec, femax. simpl Zdigits2. simpl shr_record_of_loc.
  f_equal. lia.
Qed.

(** A 24-bit mantissa with its exponent in range is its own rounding. *)
Lemma round_aux_canonical s m e :
  Zpos (digits2_pos m) = 24 -> -149 <= e <= 104 ->
  binary_round_aux fprec femax s (Zpos m) e loc_Exact = S754_finite s m e.
Proof.
  intros Hd He. unfold binary_round_aux.
  rewrite shr_fexp_exact, Hd.
  replace (Z.max (24 - 24) (-149 - e)) with 0 by lia.
  cbn [shr shr_m loc_of_shr_record round_nearest_even].
  rewrite shr_fexp_exact, Hd.
  replace (Z.max (24 - 24) (-149 - e)) with 0 by lia.
  cbn [shr shr_m]. unfold femax, fprec.
  destruct (Z.leb_spec e (128 - 24)); [reflexivity | lia].
Qed.

Lemma round_nearest_even_bounds m l :
  m <= round_nearest_even m l <= m + 1.
Proof.
  destruct l as [| []]; simpl; try lia. destruct (Z.even m); lia.
Qed.

(** What rounding an integer mantissa to binary32 gives. *)
Lemma binary_round_int s p :
  let d := Zpos (digits2_pos p) in
  d <= 64 ->
  exists m e,
    binary_round fprec femax s p 0 = S754_finite s m e /\
    ((d <= 24 /\ e = d - 24 /\ Zpos m = Zpos p * 2 ^ (24 - d)) \/
     (24 < d /\ 1 <= e)).
Proof.
  intros d Hd. pose proof (digits2_bounds p) as Hp. fold d in Hp.
  assert (0 < d) by (unfold d; lia).
  unfold binary_round, shl_align.
  replace (fexp fprec femax (Zpos (digits2_pos p) + 0) - 0) with (d - 24)
    by (unfold fexp, emin, fprec, femax; fold d; lia).
  destruct (d - 24) as [| k | k] eqn:Hk.
  - (* exactly 24 digits *)
    exists p, 0. split.
    + apply round_aux_canonical; [fold d |]; lia.
    + left. replace d with 24 by lia. simpl. lia.
  - (* more than 24 digits: the low [k] bits are rounded away *)
    unfold binary_round_aux. rewrite shr_fexp_exact. fold d.
    replace (Z.max (d - 24) (-149 - 0)) with (Zpos k) by lia.
    cbn [shr].
    set (r1 := iter_pos shr_1 k _).
    assert (E1 : shr_m r1 = Z.shiftr (Zpos p) (Zpos k))
      by (unfold r1; rewrite iter_shr_1_m; simpl; [reflexivity | lia]).
    assert (B1 : 2 ^ 23 <= shr_m r1 < 2 ^ 24).
    { rewrite E1, Z.shiftr_div_pow2 by lia.
      assert (P : 0 < 2 ^ Zpos k) by (apply Z.pow_pos_nonneg; lia).
      replace d with (Zpos k + 24) in Hp by lia.
      replace (Zpos k + 24 - 1) with (23 + Zpos k) in Hp by lia.
      rewrite !Z.pow_add_r in Hp by lia.
      split.
      - apply Z.div_le_lower_bound; lia.
      - apply Z.div_lt_upper_bound; lia. }
    pose proof (round_nearest_even_bounds (shr_m r1) (loc_of_shr_record r1)) as B2.
    set (m2 := round_nearest_even (shr_m r1) (loc_of_shr_record r1)) in *.
    destruct m2 as [| q | q] eqn:Hm2; try lia.
    rewrite shr_fexp_exact.
    destruct (Z.eq_dec (Zpos q) (2 ^ 24)) as [Top | NTop].
    + (* the rounding carried into a 25th bit *)
      injection Top as ->. 
      exists (2 ^ 23)%positive, (Zpos k + 1). split; [| right; lia].
      simpl digits2_pos.
      replace (Z.max (25 - 24) (-149 - (0 + Zpos k))) with 1 by lia.
      cbn [shr iter_pos shr_1 shr_m].
      unfold femax, fprec.
      destruct (Z.leb_spec (0 + Zpos k + 1) (128 - 24)); [f_equal; lia | lia].
    + assert (D2 : Zpos (digits2_pos q) = 24).
      { change (Zdigits2 (Zpos q) = 24). apply Zdigits2_unique; lia. }
      rewrite D2.
      replace (Z.max (24 - 24) (-149 - (0 + Zpos k))) with 0 by lia.
      cbn [shr shr_m]. exists q, (Zpos k). split; [| right; lia].
      unfold femax, fprec.
      destruct (Z.leb_spec (0 + Zpos k) (128 - 24)); [reflexivity | lia].
  - (* fewer than 24 digits: shifted left, nothing is lost *)
    exists (Pos.iter xO p k), (d - 24).
    assert (M : Zpos (Pos.iter xO p k) = Zpos p * 2 ^ (24 - d)).
    { rewrite iter_xO_mul. f_equal. f_equal. lia. }
    split.
    + replace (fexp fprec femax (Zpos (digits2_pos p) + 0)) with (d - 24)
        by (unfold fexp, emin, fprec, femax; fold d; lia).
      apply round_aux_canonical; [| lia].
      change (Zdigits2 (Zpos (Pos.iter xO p k)) = 24).
      apply Zdigits2_unique; [lia |]. rewrite M.
      assert (P : 0 < 2 ^ (24 - d)) by (apply Z.pow_pos_nonneg; lia).
      replace (2 ^ (24 - 1)) with (2 ^ (d - 1) * 2 ^ (24 - d))
        by (rewrite <- Z.pow_add_r by lia; f_equal; lia).
      replace (2 ^ 24) with (2 ^ d * 2 ^ (24 - d))
        by (rewrite <- Z.pow_add_r by lia; f_equal; lia).
      nia.
    + left. lia.
Qed.

(** An [int] has no more than 64 bits (32, in fact). *)
Lemma digits2_int z :
  in_int z -> z <> 0 ->
  Zdigits2 z <= 64.
Proof.
  unfold in_int, INT_MIN, INT_MAX. intros H N.
  destruct z as [| p | p]; [lia | |]; simpl;
    pose proof (digits2_bounds p) as B;
    destruct (Z_le_gt_dec (Zpos (digits2_pos p)) 64) as [L | G]; try exact L;
    assert (2 ^ 63 <= 2 ^ (Zpos (digits2_pos p) - 1))
      by (apply Z.pow_le_mono_r; lia); lia.
Qed.

(** The float of a nonzero [int] is finite, keeps the sign, and denotes an
    integer: the [int] itself when it has at most 24 significant bits. *)
Lemma binary_round_whole s p :
  Zpos (digits2_pos p) <= 64 ->
  exists m e n,
    binary_round fprec femax s p 0 = S754_finite s m e /\
    Qeq (finite_to_Q s m e) (inject_Z n) /\
    (Zpos p < 2 ^ 24 -> n = smant s p).
Proof.
  intros Hd. pose proof (digits2_bounds p) as B.
  destruct (binary_round_int s p Hd) as (m & e & E & [(Hs & He & Hm) | (Hl & He)]).
  - exists m, e, (smant s p). split; [exact E |]. split; [| reflexivity].
    unfold finite_to_Q. destruct (Z.leb_spec 0 e) as [P | P].
    + assert (E0 : e = 0) by lia. rewrite E0.
      replace (24 - Zpos (digits2_pos p)) with 0 in Hm by lia.
      rewrite Z.shiftl_0_r. unfold Qeq, smant. destruct s; simpl; lia.
    + unfold Qeq. simpl Qnum. simpl Qden.
      assert (0 < 2 ^ (- e)) by (apply Z.pow_pos_nonneg; lia).
      rewrite Z2Pos.id by assumption.
      replace (- e) with (24 - Zpos (digits2_pos p)) by lia.
      unfold smant. destruct s; simpl cond_Zopp; lia.
  - exists m, e, (Z.shiftl (smant s m) e). split; [exact E |].
    unfold finite_to_Q. destruct (Z.leb_spec 0 e) as [P | P]; [| lia].
    split; [reflexivity |].
    intros Hp.
    assert (2 ^ 24 <= 2 ^ (Zpos (digits2_pos p) - 1)) by (apply Z.pow_le_mono_r; lia).
    lia.
Qed.

(** Order of the floats of two positive integers, one of which has at most
    24 significant bits. *)
Lemma SFcompare_round_pos a b :
  let da := Zpos (digits2_pos a) in
  let db := Zpos (digits2_pos b) in
  da <= 64 -> db <= 64 -> da <= 24 \/ db <= 24 ->
  SFcompare (binary_round fprec femax false a 0) (binary_round fprec femax false b 0)
  = Some (Zpos a ?= Zpos b).
Proof.
  intros da db Ha Hb Hs.
  pose proof (digits2_bounds a) as Ba. pose proof (digits2_bounds b) as Bb.
  fold da in Ba. fold db in Bb.
  destruct (binary_round_int false a Ha) as (ma & ea & -> & Ca).
  destruct (binary_round_int false b Hb) as (mb & eb & -> & Cb).
  fold da in Ca. fold db in Cb.
  cbn [SFcompare]. f_equal.
  assert (Pw : forall x y, 0 <= x <= y -> 2 ^ x <= 2 ^ y)
    by (intros; apply Z.pow_le_mono_r; lia).
  destruct Ca as [(Sa & Ea & Ma) | (La & Ea)], Cb as [(Sb & Eb & Mb) | (Lb & Eb)].
  - destruct (Z.compare_spec ea eb) as [E | L | G].
    + assert (da = db) by lia.
      rewrite Pos.compare_cont_spec. simpl Pos.switch_Eq.
      change ((ma ?= mb)%positive) with (Zpos ma ?= Zpos mb).
      rewrite Ma, Mb. replace (24 - da) with (24 - db) by lia.
      rewrite <- Zmult_compare_compat_r
        by (apply Z.lt_gt; apply Z.pow_pos_nonneg; lia).
      destruct (Zpos a ?= Zpos b); reflexivity.
    + symmetry. apply Z.compare_lt_iff.
      pose proof (Pw da (db - 1)). lia.
    + symmetry. apply Z.compare_gt_iff.
      pose proof (Pw db (da - 1)). lia.
  - replace (ea ?= eb) with Lt by (symmetry; apply Z.compare_lt_iff; lia).
    symmetry. apply Z.compare_lt_iff.
    pose proof (Pw da 24). pose proof (Pw 24 (db - 1)). lia.
  - replace (ea ?= eb) with Gt by (symmetry; apply Z.compare_gt_iff; lia).
    symmetry. apply Z.compare_gt_iff.
    pose proof (Pw db 24). pose proof (Pw 24 (da - 1)). lia.
  - lia.
Qed.

(** Comparing the float of an [int] with the float of a small positive
    constant is comparing the integers. *)
Lemma float_of_int_order z k :
  in_int z -> 0 < k < 2 ^ 24 ->
  SFltb (float_of_int z) (float_of_int k) = (z <? k) /\
  SFltb (float_of_int k) (float_of_int z) = (k <? z).
Proof.
  intros Hz Hk. destruct k as [| b | b]; try lia.
  assert (Db : Zpos (digits2_pos b) <= 24).
  { pose proof (digits2_bounds b) as B.
    destruct (Z_le_gt_dec (Zpos (digits2_pos b)) 24) as [L | G]; [exact L |].
    assert (2 ^ 24 <= 2 ^ (Zpos (digits2_pos b) - 1)) by (apply Z.pow_le_mono_r; lia).
    lia. }
  unfold float_of_int, binary_normalize.
  destruct z as [| a | a].
  - destruct (binary_round_int false b) as (mb & eb & -> & _); [lia |].
    split; reflexivity.
  - assert (Da : Zpos (digits2_pos a) <= 64)
      by (apply (digits2_int (Zpos a)); [assumption | discriminate]).
    unfold SFltb.
    rewrite !SFcompare_round_pos by (try assumption; try lia; auto).
    split; reflexivity.
  - assert (Da : Zpos (digits2_pos a) <= 64)
      by (apply (digits2_int (Zneg a)); [assumption | discriminate]).
    destruct (binary_round_int false b) as (mb & eb & -> & _); [lia |].
    destruct (binary_round_int true a) as (ma & ea & -> & _); [lia |].
    split; reflexivity.
Qed.

Lemma float_of_int_whole z : in_int z -> whole (float_of_int z).
Proof.
  intros Hz. unfold whole, float_of_int, binary_normalize.
  destruct z as [| p | p].
  - exists 0%Q, 0. split; reflexivity.
  - destruct (binary_round_whole false p) as (m & e & n & -> & Q & _).
    + apply (digits2_int (Zpos p)); [assumption | discriminate].
    + exists (finite_to_Q false m e), n. split; [reflexivity | exact Q].
  - destruct (binary_round_whole true p) as (m & e & n & -> & Q & _).
    + apply (digits2_int (Zneg p)); [assumption | discriminate].
    + exists (finite_to_Q true m e), n. split; [reflexivity | exact Q].
Qed.

(** Up to 2^24 in magnitude the conversion is exact. *)
Lemma float_of_int_exact z :
  - 2 ^ 24 < z < 2 ^ 24 ->
  exists q, to_Q (float_of_int z) = Some q /\ Qeq q (inject_Z z).
Proof.
  intros Hz. unfold float_of_int, binary_normalize.
  assert (I : in_int z) by (unfold in_int, INT_MIN, INT_MAX; lia).
  destruct z as [| p | p].
  - exists 0%Q. split; reflexivity.
  - destruct (binary_round_whole false p) as (m & e & n & -> & Q & X).
    + apply (digits2_int (Zpos p)); [assumption | discriminate].
    + exists (finite_to_Q false m e). split; [reflexivity |].
      rewrite Q, X by lia. reflexivity.
  - destruct (binary_round_whole true p) as (m & e & n & -> & Q & X).
    + apply (digits2_int (Zneg p)); [assumption | discriminate].
    + exists (finite_to_Q true m e). split; [reflexivity |].
      rewrite Q, X by lia. reflexivity.
Qed.

(** ** The functions, one by one *)

Lemma to_int_MIN_PWM en c : to_int MIN_PWM en c = Ret minPwm c [].
Proof. reflexivity. Qed.

Lemma to_int_MAX_PWM en c : to_int MAX_PWM en c = Ret maxPwm c [].
Proof. reflexivity. Qed.

Lemma to_int_KICK_PWM en c : to_int KICK_PWM en c = Ret kickPwm c [].
Proof. reflexivity. Qed.

Lemma setFanSpeed_spec duty en c :
  setFanSpeed duty en c
  = Ret tt (mkCursor (reads c) (S (opens c))) (fan_events (e_pwm en (opens c)) duty).
Proof.
  unfold setFanSpeed, bind, emit, fopen_pwm, fprintf, emit, fan_events.
  cbn [reads opens]. destruct (e_pwm en (opens c)); reflexivity.
Qed.

(** No float is both above [HIGH_TEMP] and below [LOW_TEMP]. *)
Lemma above_high_not_below_low (temp : float) :
  SFltb (float_of_int HIGH_TEMP) temp = true ->
  SFltb temp (float_of_int LOW_TEMP) = false.
Proof.
  change (float_of_int HIGH_TEMP) with (S754_finite false 9830400 (-17)).
  change (float_of_int LOW_TEMP) with (S754_finite false 14417920 (-18)).
  destruct temp as [s | s | | s m e]; unfold SFltb; cbn [SFcompare].
  - discriminate.
  - destruct s; [discriminate | reflexivity].
  - discriminate.
  - destruct s; [discriminate |].
    destruct (Z.compare_spec (-17) e), (Z.compare_spec e (-18));
      try reflexivity; try discriminate; lia.
Qed.

Lemma calc_pwm_low temp r en c :
  SFltb temp (float_of_int LOW_TEMP) = true ->
  calc_pwm temp r en c
  = if 0 <? r then Ret (minPwm, r - 1) c [] else Ret (0, r) c [].
Proof.
  intros H. unfold calc_pwm. rewrite H. destruct (0 <? r); reflexivity.
Qed.

Lemma calc_pwm_high temp r en c :
  SFltb (float_of_int HIGH_TEMP) temp = true ->
  calc_pwm temp r en c = Ret (maxPwm, r) c [].
Proof.
  intros H. unfold calc_pwm.
  rewrite (above_high_not_below_low temp H), H. reflexivity.
Qed.

Lemma band_cases t :
  LOW_TEMP <= t <= HIGH_TEMP ->
  In t [55; 56; 57; 58; 59; 60; 61; 62; 63; 64; 65; 66; 67; 68; 69; 70;
        71; 72; 73; 74; 75].
Proof. unfold LOW_TEMP, HIGH_TEMP. intros H. simpl. lia. Qed.

Lemma calc_pwm_band t r en c :
  LOW_TEMP <= t <= HIGH_TEMP ->
  calc_pwm (float_of_int t) r en c
  = Ret (minPwm + 5 * (t - LOW_TEMP) / 2, RUNONLOOPS) c [].
Proof.
  intros H. apply band_cases in H. simpl in H.
  repeat (destruct H as [<- | H]; [vm_compute; reflexivity |]).
  contradiction.
Qed.

Lemma spec_duty_band t :
  LOW_TEMP <= t <= HIGH_TEMP ->
  spec_duty t = minPwm + 5 * (t - LOW_TEMP) / 2.
Proof.
  intros H. apply band_cases in H. simpl in H.
  repeat (destruct H as [<- | H]; [vm_compute; reflexivity |]).
  contradiction.
Qed.

(** What [step] does once [calc_pwm] has returned [p] and the counter [r]. *)
Lemma step_spec temp st en c p r c1 evs1 :
  calc_pwm temp (runOn st) en c = Ret (p, r) c1 evs1 ->
  step temp st en c
  = if (0 <? p) && (prevP st =? 0) then
      Ret (mkCtrl r p) (mkCursor (reads c1) (S (S (opens c1))))
          (evs1 ++ (fan_events (e_pwm en (opens c1)) kickPwm ++ [Usleep KICK_TIME])
                ++ fan_events (e_pwm en (S (opens c1))) p ++ [Sleep LOOPTIME])
    else
      Ret (mkCtrl r p) (mkCursor (reads c1) (S (opens c1)))
          (evs1 ++ fan_events (e_pwm en (opens c1)) p ++ [Sleep LOOPTIME]).
Proof.
  intros H. unfold step. unfold bind at 1. rewrite H.
  destruct ((0 <? p) && (prevP st =? 0)).
  - unfold bind. rewrite to_int_KICK_PWM, !setFanSpeed_spec.
    cbn [emit ret reads opens app]. rewrite setFanSpeed_spec. cbn [reads opens].
    f_equal.
  - unfold bind. cbn [ret]. rewrite setFanSpeed_spec. cbn [emit ret reads opens app].
    f_equal.
Qed.

Lemma stored_int_range z : in_int (stored_int z).
Proof.
  unfold in_int, stored_int, wrap_int, INT_MIN, INT_MAX.
  pose proof (Z.mod_pos_bound (Z.max LONG_MIN (Z.min LONG_MAX z) + 2 ^ 31) (2 ^ 32)).
  lia.
Qed.

Lemma sensor_value_int f : in_int (sensor_value f).
Proof.
  destruct f as [| content]; simpl.
  - unfold in_int, INT_MIN, INT_MAX. lia.
  - unfold fscanf_d.
    destruct (skip_space content) as [| ch rest]; [unfold in_int, INT_MIN, INT_MAX; lia |].
    destruct (if Ascii.eqb ch "-" then (true, rest)
              else if Ascii.eqb ch "+" then (false, rest)
              else (false, String ch rest)) as [neg body].
    destruct (scan_digits body None).
    + apply stored_int_range.
    + unfold in_int, INT_MIN, INT_MAX. lia.
Qed.

Lemma getTemp_spec en c :
  getTemp en c
  = Ret (float_of_int (sensor_value (e_temp en (reads c))))
        (mkCursor (S (reads c)) (opens c))
        (sensor_events (e_temp en (reads c))).
Proof.
  unfold getTemp, bind, fopen_temp_label. cbn [reads opens].
  destruct (e_temp en (reads c)) as [| content]; [reflexivity |].
  simpl sensor_value. destruct (fscanf_d content); reflexivity.
Qed.

(** On the floats of [int]s, [calc_pwm] is [pwm_int]: no diagnostic, no
    undefined conversion. *)
Lemma calc_pwm_int z r en c :
  in_int z ->
  calc_pwm (float_of_int z) r en c = Ret (pwm_int z r) c [].
Proof.
  intros Hz. unfold pwm_int.
  destruct (float_of_int_order z LOW_TEMP Hz) as [Lo _]; [unfold LOW_TEMP; lia |].
  destruct (float_of_int_order z HIGH_TEMP Hz) as [_ Hi]; [unfold HIGH_TEMP; lia |].
  destruct (Z.ltb_spec z LOW_TEMP) as [A | A].
  - rewrite calc_pwm_low by exact Lo. destruct (0 <? r); reflexivity.
  - destruct (Z.ltb_spec HIGH_TEMP z) as [B | B].
    + apply calc_pwm_high. exact Hi.
    + apply calc_pwm_band. lia.
Qed.

(** The temperature an iteration works on is the float of an [int], and the
    two comparisons that select the branch of [calc_pwm] are comparisons of
    that [int] with [LOW_TEMP] and [HIGH_TEMP]. *)
Lemma observed_temperature en c :
  exists z,
    in_int z /\
    getTemp en c
    = Ret (float_of_int z) (mkCursor (S (reads c)) (opens c))
          (sensor_events (e_temp en (reads c))) /\
    SFltb (float_of_int z) (float_of_int LOW_TEMP) = (z <? LOW_TEMP) /\
    SFltb (float_of_int HIGH_TEMP) (float_of_int z) = (HIGH_TEMP <? z).
Proof.
  exists (sensor_value (e_temp en (reads c))).
  pose proof (sensor_value_int (e_temp en (reads c))) as Hz.
  split; [exact Hz |]. split; [apply getTemp_spec |].
  destruct (float_of_int_order _ LOW_TEMP Hz) as [Lo _]; [unfold LOW_TEMP; lia |].
  destruct (float_of_int_order _ HIGH_TEMP Hz) as [_ Hi]; [unfold HIGH_TEMP; lia |].
  split; assumption.
Qed.

Lemma pwm_int_ok z r : duty_ok (fst (pwm_int z r)).
Proof.
  unfold pwm_int, duty_ok, minPwm, maxPwm, LOW_TEMP, HIGH_TEMP.
  destruct (Z.ltb_spec z 55); [destruct (0 <? r); cbn [fst]; lia |].
  destruct (Z.ltb_spec 75 z); cbn [fst]; [lia |].
  right. split.
  - assert (0 <= 5 * (z - 55) / 2) by (apply Z.div_pos; lia). lia.
  - assert (5 * (z - 55) / 2 <= 50) by (apply Z.div_le_upper_bound; lia). lia.
Qed.

Lemma duties_app a b : duties (a ++ b) = duties a ++ duties b.
Proof.
  induction a as [| e a IH]; [reflexivity |].
  destruct e; simpl; rewrite IH; reflexivity.
Qed.

Lemma sink_calls_app a b : sink_calls (a ++ b) = sink_calls a ++ sink_calls b.
Proof.
  induction a as [| e a IH]; [reflexivity |].
  destruct e; simpl; rewrite IH; reflexivity.
Qed.

Lemma duties_sensor f : duties (sensor_events f) = [].
Proof. destruct f; reflexivity. Qed.

Lemma sink_calls_sensor f : sink_calls (sensor_events f) = [].
Proof. destruct f; reflexivity. Qed.

Lemma duties_fan ok d : duties (fan_events ok d) = [d].
Proof. destruct ok; reflexivity. Qed.

Lemma sink_calls_fan ok d : sink_calls (fan_events ok d) = [Call_setFanSpeed d].
Proof. destruct ok; reflexivity. Qed.

(** One iteration, in closed form. *)
Lemma tick_spec st en c :
  let f := e_temp en (reads c) in
  let pr := pwm_int (sensor_value f) (runOn st) in
  tick st en c
  = Ret (mkCtrl (snd pr) (fst pr))
        (mkCursor (S (reads c)) (drive_opens (prevP st) (fst pr) + opens c))
        (sensor_events f ++ drive_events en (opens c) (prevP st) (fst pr)).
Proof.
  intros f pr. unfold tick, bind. rewrite getTemp_spec. fold f.
  rewrite (step_spec _ st en _ (fst pr) (snd pr) (mkCursor (S (reads c)) (opens c)) []).
  - unfold drive_events, drive_opens. cbn [reads opens].
    destruct ((0 <? fst pr) && (prevP st =? 0)); reflexivity.
  - rewrite calc_pwm_int by apply sensor_value_int.
    fold pr. destruct pr; reflexivity.
Qed.

Lemma duties_drive en k prev p :
  duties (drive_events en k prev p)
  = if (0 <? p) && (prev =? 0) then [kickPwm; p] else [p].
Proof.
  unfold drive_events. destruct ((0 <? p) && (prev =? 0));
    rewrite ?duties_app, ?duties_fan; reflexivity.
Qed.

Lemma sink_calls_drive en k prev p :
  sink_calls (drive_events en k prev p)
  = if (0 <? p) && (prev =? 0)
    then [Call_setFanSpeed kickPwm; Usleep KICK_TIME; Call_setFanSpeed p]
    else [Call_setFanSpeed p].
Proof.
  unfold drive_events. destruct ((0 <? p) && (prev =? 0));
    rewrite ?sink_calls_app, ?sink_calls_fan; reflexivity.
Qed.

(** ** Admissible duties, compositionally *)

Lemma safe_bind {A B} (m : M A) (f : A -> M B) en c :
  safe (m en c) ->
  (forall a c1 evs1, m en c = Ret a c1 evs1 -> safe (f a en c1)) ->
  safe (bind m f en c).
Proof.
  unfold safe, bind. intros [Dm Hm] Hf.
  destruct (m en c) as [a c1 evs1 | code evs1 | evs1]; [| split; assumption | contradiction].
  destruct (Hf a c1 evs1 eq_refl) as [Df Hd].
  destruct (f a en c1) as [b c2 evs2 | code evs2 | evs2]; [| | contradiction];
    (split; [exact I |]);
    cbn [events] in *; rewrite duties_app; apply Forall_app; split; assumption.
Qed.

Lemma safe_quiet {A} (r : result A) :
  defined r -> duties (events r) = [] -> safe r.
Proof. unfold safe. intros D ->. split; [exact D | constructor]. Qed.

Lemma safe_setFanSpeed d en c : duty_ok d -> safe (setFanSpeed d en c).
Proof.
  intros H. unfold safe. rewrite setFanSpeed_spec. cbn [events defined].
  rewrite duties_fan. split; [exact I |]. constructor; [exact H | constructor].
Qed.

Lemma kickPwm_ok : duty_ok kickPwm.
Proof. right. unfold kickPwm, minPwm, maxPwm. lia. Qed.

Lemma maxPwm_ok : duty_ok maxPwm.
Proof. right. unfold minPwm, maxPwm. lia. Qed.

Lemma safe_getTemp en c : safe (getTemp en c).
Proof.
  rewrite getTemp_spec. apply safe_quiet; [exact I | apply duties_sensor].
Qed.

Lemma safe_tick st en c : safe (tick st en c).
Proof.
  unfold safe. rewrite tick_spec. cbn [events defined]. split; [exact I |].
  rewrite duties_app, duties_sensor, duties_drive. cbn [app].
  pose proof (pwm_int_ok (sensor_value (e_temp en (reads c))) (runOn st)) as P.
  destruct (_ && _).
  - apply Forall_cons; [apply kickPwm_ok |]. apply Forall_cons; [exact P | apply Forall_nil].
  - apply Forall_cons; [exact P | apply Forall_nil].
Qed.

Lemma safe_control_loop n : forall st en c, safe (control_loop n st en c).
Proof.
  induction n as [| n IH]; intros st en c; cbn [control_loop].
  - apply safe_quiet; [exact I | reflexivity].
  - apply safe_bind; [apply safe_tick |]. intros st' c1 evs1 _. apply IH.
Qed.

(** Walks down a program of binds and conditionals, leaving the calls of
    [setFanSpeed] whose argument is not yet known to be admissible. *)
Ltac safe_walk :=
  repeat first
    [ apply safe_getTemp
    | apply safe_control_loop
    | apply safe_setFanSpeed
    | apply safe_bind; [| intros ? ? ? ?]
    | match goal with |- safe ((if ?b then _ else _) _ _) => destruct b end
    | apply safe_quiet; [exact I | reflexivity] ].

(** ** One iteration on a whole-degree temperature *)

(** The control loop never stops of its own and never runs into an
    undefined conversion. *)
Lemma control_loop_runs n : forall st en c,
  exists st' c' evs, control_loop n st en c = Ret st' c' evs.
Proof.
  induction n as [| n IH]; intros st en c; cbn [control_loop].
  - eexists _, _, _. reflexivity.
  - unfold bind. rewrite tick_spec.
    match goal with |- context [control_loop n ?s en ?k] =>
      destruct (IH s en k) as (st' & c' & evs & ->) end.
    eexists _, _, _. reflexivity.
Qed.

(** The step on the float of an [int]. *)
Lemma step_int z st en c :
  in_int z ->
  exists c' evs,
    step (float_of_int z) st en c
    = Ret (mkCtrl (snd (pwm_int z (runOn st))) (fst (pwm_int z (runOn st)))) c' evs /\
    last (duties evs) 0 = fst (pwm_int z (runOn st)).
Proof.
  intros Hz.
  rewrite (step_spec _ st en c (fst (pwm_int z (runOn st)))
             (snd (pwm_int z (runOn st))) c [])
    by (rewrite calc_pwm_int by exact Hz; destruct (pwm_int z (runOn st)); reflexivity).
  destruct (_ && _); eexists _, _; (split; [reflexivity |]);
    rewrite ?app_nil_l, ?duties_app, ?duties_fan; reflexivity.
Qed.

Lemma band_int t : LOW_TEMP <= t <= HIGH_TEMP -> in_int t.
Proof. unfold LOW_TEMP, HIGH_TEMP, in_int, INT_MIN, INT_MAX. lia. Qed.

Lemma pwm_int_band t r :
  LOW_TEMP <= t <= HIGH_TEMP ->
  pwm_int t r = (minPwm + 5 * (t - LOW_TEMP) / 2, RUNONLOOPS).
Proof.
  unfold pwm_int. intros H.
  destruct (Z.ltb_spec t LOW_TEMP); [lia |].
  destruct (Z.ltb_spec HIGH_TEMP t); [lia | reflexivity].
Qed.

(** Above [HIGH_TEMP] the fan runs at [maxPwm] and the run-on counter is
    left as it was. *)
Lemma above_high_temp (temp : float) st en c :
  SFltb (float_of_int HIGH_TEMP) temp = true ->
  exists c' evs,
    step temp st en c = Ret (mkCtrl (runOn st) maxPwm) c' evs /\
    last (duties evs) 0 = maxPwm.
Proof.
  intros Hi.
  rewrite (step_spec temp st en c maxPwm (runOn st) c [] (calc_pwm_high _ _ _ _ Hi)).
  destruct (_ && _); eexists _, _; (split; [reflexivity |]);
    rewrite ?app_nil_l, ?duties_app, ?duties_fan; reflexivity.
Qed.

Lemma sensor_fails_value f : sensor_fails f -> sensor_value f = 0.
Proof.
  destruct f as [| content]; simpl; [reflexivity |].
  destruct (fscanf_d content); simpl; [lia | reflexivity | reflexivity].
Qed.

(** Whether pwm.0 can be opened has no influence on the controller: same
    states, same commands. *)
Lemma control_loop_pwm_independent n pwm' : forall st en c,
  exists st' c' evs evs',
    control_loop n st en c = Ret st' c' evs /\
    control_loop n st (with_pwm en pwm') c = Ret st' c' evs' /\
    duties evs = duties evs'.
Proof.
  induction n as [| n IH]; intros st en c; cbn [control_loop].
  - eexists _, _, _, _. repeat split; reflexivity.
  - unfold bind. rewrite !tick_spec. cbn [with_pwm e_temp].
    match goal with |- context [control_loop n ?s en ?k] =>
      destruct (IH s en k) as (st' & c' & evs & evs' & -> & -> & D) end.
    eexists _, _, _, _. split; [reflexivity |]. split; [reflexivity |].
    rewrite !duties_app, !duties_drive, D. reflexivity.
Qed.

(** [main] is defined in every environment, and whatever it sends to the
    fan is admissible. *)
Lemma main_safe n en c : safe (main n en c).
Proof.
  unfold main. safe_walk.
  match goal with H : to_int MAX_PWM _ _ = Ret _ _ _ |- _ =>
    rewrite to_int_MAX_PWM in H; injection H as <- _ _ end.
  apply maxPwm_ok.
Qed.

(** ** Runs on concrete sensor files *)

Example fscanf_d_examples :
  fscanf_d "48" = Converted 48 /\
  fscanf_d "  -12abc" = Converted (-12) /\
  fscanf_d "4.5" = Converted 4 /\
  fscanf_d "2147483647" = Converted INT_MAX /\
  fscanf_d "99999999999" = Converted 1215752191 /\
  fscanf_d "2147483648" = Converted INT_MIN /\
  fscanf_d "n/a" = Matching_failure /\
  fscanf_d "+" = Matching_failure /\
  fscanf_d "" = Input_failure.
Proof. repeat split; reflexivity. Qed.

Example float_of_int_examples :
  float_of_int 55 = S754_finite false 14417920 (-18) /\
  float_of_int 0 = S754_zero false /\
  float_of_int 16777217 = S754_finite false 8388608 1 /\
  to_Q (float_of_int (-3)) = Some (Qmake (-12582912) 4194304).
Proof. repeat split; reflexivity. Qed.

(** Cold, warm, hot, then cold again: off, kick and 62, 100, then run-on at
    [minPwm] with the counter going down from [RUNONLOOPS]. *)
Example run_cold_warm_hot_cold :
  let en := daemon_env [Readable "40"; Readable "60"; Readable "80";
                        Readable "40"; Readable "40"] (fun _ => true) in
  exists c' evs,
    control_loop 5 (mkCtrl 0 0) en start = Ret (mkCtrl (RUNONLOOPS - 2) minPwm) c' evs /\
    duties evs = [0; kickPwm; 62; maxPwm; minPwm; minPwm] /\
    pwm_writes evs = [0; kickPwm; 62; maxPwm; minPwm; minPwm].
Proof. intros en. eexists _, _. repeat split; reflexivity. Qed.

(** A whole run of [main]: startup, warm-up pulse, one iteration. *)
Example run_main :
  main 1 (daemon_env [Readable "48"; Readable "75"] (fun _ => true)) start
  = Ret (mkCtrl RUNONLOOPS maxPwm) (mkCursor 2 3)
        [Umask 0; Fprintf flog "pfand started\n" []; Fflush flog;
         Close 0; Close 1; Close 2;
         Call_setFanSpeed 100; Fprintf pfile "50000,%d\n" [100]; Sleep 5;
         Call_setFanSpeed 70; Fprintf pfile "50000,%d\n" [70]; Usleep 500000;
         Call_setFanSpeed 100; Fprintf pfile "50000,%d\n" [100]; Sleep 2].
Proof. reflexivity. Qed.

(** * The claims *)

(** C1. The claim: for every temperature above [HIGH_TEMP] the step yields
    duty [maxPwm] and resets the run-on counter to [RUNONLOOPS].  The code
    yields [maxPwm] but only the in-band branch resets the counter.  Here
    the loop starts (counter 0, fan off) on a sensor that reads 80 and then
    40: after the first iteration the counter is still 0, not [RUNONLOOPS],
    and the second iteration turns the fan off with no run-on at all. *)
Theorem high_temp_leaves_runOn :
  let en := daemon_env [Readable "80"; Readable "40"] (fun _ => true) in
  SFltb (float_of_int HIGH_TEMP) (float_of_int 80) = true /\
  tick (mkCtrl 0 0) en start
  = Ret (mkCtrl 0 maxPwm) (mkCursor 1 2)
        (fan_events true kickPwm ++ [Usleep KICK_TIME]
         ++ fan_events true maxPwm ++ [Sleep LOOPTIME]) /\
  0 <> RUNONLOOPS /\
  exists c' evs,
    control_loop 2 (mkCtrl 0 0) en start = Ret (mkCtrl 0 0) c' evs /\
    duties evs = [kickPwm; maxPwm; 0].
Proof.
  intros en. split; [reflexivity |]. split; [reflexivity |].
  split; [discriminate |]. eexists _, _. split; reflexivity.
Qed.

(** C2, as claimed, does not hold: the claim is that an iteration whose
    sensor read fails keeps the duty commanded before and leaves the
    controller state as it was.  With the counter at 5 and the fan at
    [maxPwm], an unreadable sensor file makes the iteration command [minPwm]
    and take the counter down to 4. *)
Lemma failed_read_is_not_skipped :
  let en := daemon_env [Unreadable] (fun _ => true) in
  let st := mkCtrl 5 maxPwm in
  sensor_fails (e_temp en 0) /\
  tick st en start
  = Ret (mkCtrl 4 minPwm) (mkCursor 1 1)
        (Fprintf stderr "failed to open temperature file\n" []
         :: fan_events true minPwm ++ [Sleep LOOPTIME]) /\
  mkCtrl 4 minPwm <> st /\
  minPwm <> prevP st.
Proof.
  intros en st. split; [exact I |]. split; [reflexivity |].
  split; discriminate.
Qed.

(** C2, amended: an iteration whose sensor read fails is run on a
    temperature of 0 degrees, which is below [LOW_TEMP]: with a positive
    run-on counter it commands [minPwm] (after a kick if the fan was off)
    and decrements the counter, otherwise it commands 0; the commanded duty
    becomes the previous duty. *)
Theorem failed_read_taken_as_zero st en c :
  sensor_fails (e_temp en (reads c)) ->
  exists c' evs,
    tick st en c
    = Ret (if 0 <? runOn st then mkCtrl (runOn st - 1) minPwm
           else mkCtrl (runOn st) 0) c' evs /\
    duties evs
    = if 0 <? runOn st
      then (if prevP st =? 0 then [kickPwm; minPwm] else [minPwm])
      else [0].
Proof.
  intros F. rewrite tick_spec, (sensor_fails_value _ F). unfold pwm_int.
  change (0 <? LOW_TEMP) with true. cbn iota.
  destruct (0 <? runOn st); cbn [fst snd]; eexists _, _;
    (split; [reflexivity |]);
    rewrite duties_app, duties_sensor, duties_drive; reflexivity.
Qed.

Lemma failed_read_taken_as_zero_witness :
  sensor_fails (e_temp (daemon_env [Readable "n/a"] (fun _ => true)) (reads start)) /\
  exists c' evs,
    tick (mkCtrl 5 maxPwm) (daemon_env [Readable "n/a"] (fun _ => true)) start
    = Ret (mkCtrl (5 - 1) minPwm) c' evs /\
    duties evs = [minPwm].
Proof.
  assert (F : sensor_fails
                (e_temp (daemon_env [Readable "n/a"] (fun _ => true)) (reads start)))
    by (simpl; discriminate).
  split; [exact F |].
  apply (failed_read_taken_as_zero (mkCtrl 5 maxPwm) _ start F).
Defined.

(** C3. Every iteration returns, with the duty [p] that [calc_pwm] computed
    as the new previous duty.  If the previous duty was 0 and [p > 0], the
    calls of [setFanSpeed] and [usleep] are exactly: [setFanSpeed(kickPwm)],
    [usleep(KICK_TIME)], [setFanSpeed(p)].  If the previous duty was
    positive, the only call is [setFanSpeed(p)]. *)
Theorem kick_sequencing st en c :
  exists temp c1 evs0 p r c' evs,
    getTemp en c = Ret temp c1 evs0 /\
    calc_pwm temp (runOn st) en c1 = Ret (p, r) c1 [] /\
    tick st en c = Ret (mkCtrl r p) c' evs /\
    (prevP st = 0 -> 0 < p ->
     sink_calls evs
     = [Call_setFanSpeed kickPwm; Usleep KICK_TIME; Call_setFanSpeed p]) /\
    (0 < prevP st -> sink_calls evs = [Call_setFanSpeed p]).
Proof.
  pose (f := e_temp en (reads c)).
  pose (pr := pwm_int (sensor_value f) (runOn st)).
  eexists _, _, _, (fst pr), (snd pr), _, _.
  split; [apply getTemp_spec |].
  split; [rewrite calc_pwm_int by apply sensor_value_int; fold f pr;
          destruct pr; reflexivity |].
  split; [apply tick_spec |].
  fold f pr. rewrite sink_calls_app, sink_calls_sensor, sink_calls_drive. cbn [app].
  split.
  - intros P0 Pp. rewrite P0.
    destruct (Z.ltb_spec 0 (fst pr)); [reflexivity | lia].
  - intros Pprev.
    destruct (Z.eqb_spec (prevP st) 0); [lia |].
    rewrite andb_false_r. reflexivity.
Qed.

Lemma kick_sequencing_witness :
  exists c' evs p,
    tick (mkCtrl 0 0) (daemon_env [Readable "60"] (fun _ => true)) start
    = Ret (mkCtrl RUNONLOOPS p) c' evs /\
    0 < p /\
    sink_calls evs = [Call_setFanSpeed kickPwm; Usleep KICK_TIME; Call_setFanSpeed p].
Proof.
  destruct (kick_sequencing (mkCtrl 0 0) (daemon_env [Readable "60"] (fun _ => true)) start)
    as (temp & c1 & evs0 & p & r & c' & evs & _ & _ & T & K & _).
  assert (E : tick (mkCtrl 0 0) (daemon_env [Readable "60"] (fun _ => true)) start
              = Ret (mkCtrl RUNONLOOPS 62) (mkCursor 1 2)
                    (fan_events true kickPwm ++ [Usleep KICK_TIME]
                     ++ fan_events true 62 ++ [Sleep LOOPTIME]))
    by reflexivity.
  rewrite E in T. injection T as <- <- <- <-.
  eexists _, _, 62. split; [reflexivity |]. split; [lia |].
  apply K; [reflexivity | lia].
Defined.

(** C4. For every temperature below [LOW_TEMP]: with the run-on counter at 0
    the step yields duty 0 (and nothing else is sent to the fan); with the
    counter at [k > 0] it yields duty [minPwm] and leaves the counter at
    [k - 1]. *)
Theorem below_low_temp (temp : float) st en c :
  SFltb temp (float_of_int LOW_TEMP) = true ->
  (runOn st = 0 ->
   exists c' evs,
     step temp st en c = Ret (mkCtrl 0 0) c' evs /\ duties evs = [0]) /\
  (forall k, runOn st = k -> 0 < k ->
   exists c' evs,
     step temp st en c = Ret (mkCtrl (k - 1) minPwm) c' evs /\
     last (duties evs) 0 = minPwm).
Proof.
  intros Lo. split.
  - intros R0. eexists _, _.
    rewrite (step_spec temp st en c 0 0 c [])
      by (rewrite calc_pwm_low, R0 by exact Lo; reflexivity).
    cbn [Z.ltb Z.compare andb app]. split; [reflexivity |].
    rewrite duties_app, duties_fan. reflexivity.
  - intros k Rk Pk.
    assert (E : calc_pwm temp (runOn st) en c = Ret (minPwm, k - 1) c []).
    { rewrite calc_pwm_low, Rk by exact Lo.
      destruct (Z.ltb_spec 0 k); [reflexivity | lia]. }
    rewrite (step_spec temp st en c minPwm (k - 1) c [] E).
    destruct ((0 <? minPwm) && (prevP st =? 0)); eexists _, _;
      (split; [reflexivity |]);
      rewrite ?app_nil_l, ?duties_app, ?duties_fan; reflexivity.
Qed.

Lemma below_low_temp_witness :
  SFltb (float_of_int 40) (float_of_int LOW_TEMP) = true /\
  (exists c' evs,
     step (float_of_int 40) (mkCtrl 0 0) (daemon_env [] (fun _ => true)) start
     = Ret (mkCtrl 0 0) c' evs /\ duties evs = [0]) /\
  (exists c' evs,
     step (float_of_int 40) (mkCtrl 15 100) (daemon_env [] (fun _ => true)) start
     = Ret (mkCtrl (15 - 1) minPwm) c' evs /\ last (duties evs) 0 = minPwm).
Proof.
  split; [reflexivity |]. split.
  - apply (below_low_temp (float_of_int 40) (mkCtrl 0 0)); reflexivity.
  - apply (below_low_temp (float_of_int 40) (mkCtrl 15 100)
             (daemon_env [] (fun _ => true)) start eq_refl); [reflexivity | lia].
Defined.

(** C5. For every temperature [t] of the band [LOW_TEMP .. HIGH_TEMP], in
    the whole degrees [getTemp] delivers (the float handed to the step
    denotes exactly [t]), the step yields the duty
    floor (minPwm + (maxPwm - minPwm) * (t - LOW_TEMP) / (HIGH_TEMP - LOW_TEMP))
    and sets the run-on counter; at [LOW_TEMP] that duty is [minPwm], at
    [HIGH_TEMP] it is [maxPwm]. *)
Theorem in_band_interpolation t st en c :
  LOW_TEMP <= t <= HIGH_TEMP ->
  (exists q, to_Q (float_of_int t) = Some q /\ Qeq q (inject_Z t)) /\
  (exists c' evs,
     step (float_of_int t) st en c = Ret (mkCtrl RUNONLOOPS (spec_duty t)) c' evs /\
     last (duties evs) 0 = spec_duty t) /\
  spec_duty LOW_TEMP = minPwm /\
  spec_duty HIGH_TEMP = maxPwm.
Proof.
  intros H.
  split; [apply float_of_int_exact; unfold LOW_TEMP, HIGH_TEMP in H; lia |].
  split; [| split; reflexivity].
  destruct (step_int t st en c (band_int t H)) as (c' & evs & E & L).
  rewrite pwm_int_band in E, L by exact H. cbn [fst snd] in E, L.
  rewrite <- spec_duty_band in E, L by exact H.
  exists c', evs. split; assumption.
Qed.

Lemma in_band_interpolation_witness :
  LOW_TEMP <= 60 <= HIGH_TEMP /\
  (exists q, to_Q (float_of_int 60) = Some q /\ Qeq q (inject_Z 60)) /\
  (exists c' evs,
     step (float_of_int 60) (mkCtrl 0 0) (daemon_env [] (fun _ => true)) start
     = Ret (mkCtrl RUNONLOOPS (spec_duty 60)) c' evs /\
     last (duties evs) 0 = spec_duty 60) /\
  spec_duty LOW_TEMP = minPwm /\
  spec_duty HIGH_TEMP = maxPwm.
Proof.
  assert (H : LOW_TEMP <= 60 <= HIGH_TEMP) by (unfold LOW_TEMP, HIGH_TEMP; lia).
  split; [exact H |].
  apply (in_band_interpolation 60 (mkCtrl 0 0) (daemon_env [] (fun _ => true)) start H).
Defined.

(** C6. For in-band temperatures [LOW_TEMP <= t1 < t2 <= HIGH_TEMP], the
    duty the step yields for [t1] is at most the duty it yields for [t2]. *)
Theorem in_band_monotone t1 t2 st1 st2 en c :
  LOW_TEMP <= t1 -> t1 < t2 -> t2 <= HIGH_TEMP ->
  exists r1 p1 c1 evs1 r2 p2 c2 evs2,
    step (float_of_int t1) st1 en c = Ret (mkCtrl r1 p1) c1 evs1 /\
    last (duties evs1) 0 = p1 /\
    step (float_of_int t2) st2 en c = Ret (mkCtrl r2 p2) c2 evs2 /\
    last (duties evs2) 0 = p2 /\
    p1 <= p2.
Proof.
  intros H1 H12 H2.
  assert (B1 : LOW_TEMP <= t1 <= HIGH_TEMP) by lia.
  assert (B2 : LOW_TEMP <= t2 <= HIGH_TEMP) by lia.
  destruct (step_int t1 st1 en c (band_int t1 B1)) as (c1 & evs1 & E1 & L1).
  destruct (step_int t2 st2 en c (band_int t2 B2)) as (c2 & evs2 & E2 & L2).
  rewrite pwm_int_band in E1, L1 by exact B1.
  rewrite pwm_int_band in E2, L2 by exact B2.
  cbn [fst snd] in *.
  eexists _, _, c1, evs1, _, _, c2, evs2.
  repeat (split; [eassumption |]).
  assert (5 * (t1 - LOW_TEMP) / 2 <= 5 * (t2 - LOW_TEMP) / 2)
    by (apply Z.div_le_mono; lia).
  lia.
Qed.

Lemma in_band_monotone_witness :
  exists r1 p1 c1 evs1 r2 p2 c2 evs2,
    step (float_of_int 60) (mkCtrl 0 0) (daemon_env [] (fun _ => true)) start
    = Ret (mkCtrl r1 p1) c1 evs1 /\
    last (duties evs1) 0 = p1 /\
    step (float_of_int 61) (mkCtrl 0 0) (daemon_env [] (fun _ => true)) start
    = Ret (mkCtrl r2 p2) c2 evs2 /\
    last (duties evs2) 0 = p2 /\
    p1 <= p2.
Proof.
  apply (in_band_monotone 60 61); unfold LOW_TEMP, HIGH_TEMP; lia.
Defined.

(** C7. In every run of [main], through any number of iterations and in any
    environment, every duty [setFanSpeed] is called with (the warm-up
    pulse, the kicks and the steady-state duties) is 0 or lies in
    [minPwm .. maxPwm]. *)
Theorem duty_always_off_or_in_band n en c :
  Forall (fun d => d = 0 \/ minPwm <= d <= maxPwm) (duties (events (main n en c))).
Proof.
  apply (main_safe n en c).
Qed.

(** C8. When the process reaches the temperature check of its startup (it
    is root, it is the forked child, the log file opened) and [getTemp]
    returns 0 there, [main] logs the failure and exits with [EXIT_FAILURE]
    before the control loop, and [setFanSpeed] is never called. *)
Theorem startup_read_failure n en c c1 evs0 :
  e_euid en = 0 -> e_fork en = 0 -> e_log en = true ->
  getTemp en c = Ret (float_of_int 0) c1 evs0 ->
  main n en c
  = Exit EXIT_FAILURE
      ([Umask 0; Fprintf flog "pfand started\n" []; Fflush flog] ++ evs0 ++
       [Fprintf flog "unable to read the temperature (or it's zero degrees?), quitting\n" []])
  /\ duties (events (main n en c)) = [].
Proof.
  intros Hu Hf Hl Ht.
  assert (E : main n en c
              = Exit EXIT_FAILURE
                  ([Umask 0; Fprintf flog "pfand started\n" []; Fflush flog] ++ evs0 ++
                   [Fprintf flog "unable to read the temperature (or it's zero degrees?), quitting\n" []])).
  { unfold main, bind, ask, fprintf, emit, exit. cbv beta iota.
    rewrite Hu. cbn [Z.eqb negb]. cbv beta iota.
    rewrite Hf. cbn [Z.ltb Z.compare]. cbv beta iota.
    rewrite Hl. cbn [negb]. cbv beta iota.
    rewrite Ht.
    change (SFeqb (double_of_float (float_of_int 0)) (S754_zero false)) with true.
    cbv beta iota. cbn [app]. reflexivity. }
  split; [exact E |]. rewrite E. cbn [events].
  rewrite getTemp_spec in Ht. injection Ht as _ _ <-.
  rewrite !duties_app, duties_sensor. reflexivity.
Qed.

Lemma startup_read_failure_witness :
  main 3 (daemon_env [] (fun _ => true)) start
  = Exit EXIT_FAILURE
      ([Umask 0; Fprintf flog "pfand started\n" []; Fflush flog] ++
       [Fprintf stderr "failed to open temperature file\n" []] ++
       [Fprintf flog "unable to read the temperature (or it's zero degrees?), quitting\n" []])
  /\ duties (events (main 3 (daemon_env [] (fun _ => true)) start)) = [].
Proof.
  apply (startup_read_failure 3 (daemon_env [] (fun _ => true)) start (mkCursor 1 0));
    reflexivity.
Defined.

(** What does hold when pwm.0 cannot be opened: [setFanSpeed] calls
    [fprintf] on stderr, writes nothing and returns; the control loop goes
    on whatever the device does, through the same controller states and the
    same calls of [setFanSpeed] as with any other device; and every
    iteration opens the device again. *)
Lemma pwm_failure_not_fatal :
  (forall duty en c,
     e_pwm en (opens c) = false ->
     setFanSpeed duty en c
     = Ret tt (mkCursor (reads c) (S (opens c)))
           [Call_setFanSpeed duty;
            Fprintf stderr "failed to open pwm.0 for writing\n" []]) /\
  (forall n st en c pwm',
     exists st' c' evs evs',
       control_loop n st en c = Ret st' c' evs /\
       control_loop n st (with_pwm en pwm') c = Ret st' c' evs' /\
       duties evs = duties evs') /\
  (forall st en c,
     exists st' c' evs,
       tick st en c = Ret st' c' evs /\
       last (duties evs) 0 = prevP st' /\
       (opens c < opens c')%nat).
Proof.
  split; [| split].
  - intros duty en c H. rewrite setFanSpeed_spec, H. reflexivity.
  - intros n st en c pwm'. apply control_loop_pwm_independent.
  - intros st en c. rewrite tick_spec. eexists _, _, _.
    split; [reflexivity |]. cbn [prevP opens].
    rewrite duties_app, duties_sensor, duties_drive. unfold drive_opens.
    destruct (_ && _); split; try reflexivity; lia.
Qed.

(** C9. The claim: when pwm.0 cannot be opened, the failure is logged, the
    command of that tick is dropped, the loop goes on with its state
    untouched, and the next tick retries the write.  The code reports the
    failure with [fprintf] on stderr, but [main] has closed descriptor 2
    before it first calls [setFanSpeed].  Here pwm.0 does not open for the
    warm-up pulse, the kick and the first duty, and opens from then on: the
    three commands are dropped, the loop goes on and the second iteration
    writes its duty, but nothing has reached stderr and the log file holds
    the startup line only. *)
Theorem pwm_failure_is_not_logged :
  let en := daemon_env [Readable "48"; Readable "60"; Readable "60"]
                       (fun k => Nat.leb 3 k) in
  main 2 en start
  = Ret (mkCtrl RUNONLOOPS 62) (mkCursor 3 4)
        [Umask 0; Fprintf flog "pfand started\n" []; Fflush flog;
         Close 0; Close 1; Close 2;
         Call_setFanSpeed 100; Fprintf stderr "failed to open pwm.0 for writing\n" [];
         Sleep 5;
         Call_setFanSpeed 70; Fprintf stderr "failed to open pwm.0 for writing\n" [];
         Usleep 500000;
         Call_setFanSpeed 62; Fprintf stderr "failed to open pwm.0 for writing\n" [];
         Sleep 2;
         Call_setFanSpeed 62; Fprintf pfile "50000,%d\n" [62];
         Sleep 2] /\
  stderr_output true (events (main 2 en start)) = [] /\
  log_output (events (main 2 en start)) = ["pfand started\n"%string] /\
  pwm_writes (events (main 2 en start)) = [62].
Proof.
  intros en. repeat split; reflexivity.
Qed.

(** C10. [getTemp] always returns, and what it returns is a whole number:
    the float of the [int] that [fscanf] converted, or the float of 0 when
    the file does not open and likewise when [fscanf] converts nothing. *)
Theorem getTemp_whole_degrees en c :
  exists (t : float) evs,
    getTemp en c = Ret t (mkCursor (S (reads c)) (opens c)) evs /\
    whole t /\
    match e_temp en (reads c) with
    | Unreadable => t = float_of_int 0
    | Readable content =>
        match fscanf_d content with
        | Converted temp => t = float_of_int temp
        | _ => t = float_of_int 0
        end
    end.
Proof.
  eexists _, _. split; [apply getTemp_spec |].
  split; [apply float_of_int_whole, sensor_value_int |].
  destruct (e_temp en (reads c)) as [| content]; [reflexivity |].
  simpl. destruct (fscanf_d content); reflexivity.
Qed.

(** * Further properties of the three functions *)

(** ** The startup test on the temperature *)

(** The float of an integer with its mantissa and exponent bounds: the
    mantissa has exactly 24 bits. *)
Lemma binary_round_int_canonical s p :
  let d := Zpos (digits2_pos p) in
  d <= 64 ->
  exists m e,
    binary_round fprec femax s p 0 = S754_finite s m e /\
    Zpos (digits2_pos m) = 24 /\ -23 <= e <= 41.
Proof.
  intros d Hd. pose proof (digits2_bounds p) as Hp. fold d in Hp.
  assert (0 < d) by (unfold d; lia).
  unfold binary_round, shl_align.
  replace (fexp fprec femax (Zpos (digits2_pos p) + 0) - 0) with (d - 24)
    by (unfold fexp, emin, fprec, femax; fold d; lia).
  destruct (d - 24) as [| k | k] eqn:Hk.
  - exists p, 0. split; [apply round_aux_canonical; [fold d |]; lia |]. fold d. lia.
  - unfold binary_round_aux. rewrite shr_fexp_exact. fold d.
    replace (Z.max (d - 24) (-149 - 0)) with (Zpos k) by lia.
    cbn [shr].
    set (r1 := iter_pos shr_1 k _).
    assert (E1 : shr_m r1 = Z.shiftr (Zpos p) (Zpos k))
      by (unfold r1; rewrite iter_shr_1_m; simpl; [reflexivity | lia]).
    assert (B1 : 2 ^ 23 <= shr_m r1 < 2 ^ 24).
    { rewrite E1, Z.shiftr_div_pow2 by lia.
      assert (P : 0 < 2 ^ Zpos k) by (apply Z.pow_pos_nonneg; lia).
      replace d with (Zpos k + 24) in Hp by lia.
      replace (Zpos k + 24 - 1) with (23 + Zpos k) in Hp by lia.
      rewrite !Z.pow_add_r in Hp by lia.
      split.
      - apply Z.div_le_lower_bound; lia.
      - apply Z.div_lt_upper_bound; lia. }
    pose proof (round_nearest_even_bounds (shr_m r1) (loc_of_shr_record r1)) as B2.
    set (m2 := round_nearest_even (shr_m r1) (loc_of_shr_record r1)) in *.
    destruct m2 as [| q | q] eqn:Hm2; try lia.
    rewrite shr_fexp_exact.
    destruct (Z.eq_dec (Zpos q) (2 ^ 24)) as [Top | NTop].
    + injection Top as ->.
      exists (2 ^ 23)%positive, (Zpos k + 1). split; [| simpl digits2_pos; lia].
      simpl digits2_pos.
      replace (Z.max (25 - 24) (-149 - (0 + Zpos k))) with 1 by lia.
      cbn [shr iter_pos shr_1 shr_m].
      unfold femax, fprec.
      destruct (Z.leb_spec (0 + Zpos k + 1) (128 - 24)); [f_equal; lia | lia].
    + assert (D2 : Zpos (digits2_pos q) = 24).
      { change (Zdigits2 (Zpos q) = 24). apply Zdigits2_unique; lia. }
      rewrite D2.
      replace (Z.max (24 - 24) (-149 - (0 + Zpos k))) with 0 by lia.
      cbn [shr shr_m]. exists q, (Zpos k). split; [| lia].
      unfold femax, fprec.
      destruct (Z.leb_spec (0 + Zpos k) (128 - 24)); [reflexivity | lia].
  - exists (Pos.iter xO p k), (d - 24).
    assert (M : Zpos (Pos.iter xO p k) = Zpos p * 2 ^ (24 - d)).
    { rewrite iter_xO_mul. f_equal. f_equal. lia. }
    assert (D : Zpos (digits2_pos (Pos.iter xO p k)) = 24).
    { change (Zdigits2 (Zpos (Pos.iter xO p k)) = 24).
      apply Zdigits2_unique; [lia |]. rewrite M.
      assert (P : 0 < 2 ^ (24 - d)) by (apply Z.pow_pos_nonneg; lia).
      replace (2 ^ (24 - 1)) with (2 ^ (d - 1) * 2 ^ (24 - d))
        by (rewrite <- Z.pow_add_r by lia; f_equal; lia).
      replace (2 ^ 24) with (2 ^ d * 2 ^ (24 - d))
        by (rewrite <- Z.pow_add_r by lia; f_equal; lia).
      nia. }
    split; [| split; [exact D | lia]].
    replace (fexp fprec femax (Zpos (digits2_pos p) + 0)) with (d - 24)
      by (unfold fexp, emin, fprec, femax; fold d; lia).
    apply round_aux_canonical; [exact D | lia].
Qed.

(** A 53-bit mantissa with its exponent in range is its own binary64
    rounding. *)
Lemma round_aux_canonical_double s m e :
  Zpos (digits2_pos m) = 53 -> -1074 <= e <= 971 ->
  binary_round_aux dprec demax s (Zpos m) e loc_Exact = S754_finite s m e.
Proof.
  intros Hd He.
  assert (F : forall l, shr_fexp dprec demax (Zpos m) e l
                        = (shr_record_of_loc (Zpos m) l, e)).
  { intros l. unfold shr_fexp, fexp, emin, dprec, demax. simpl Zdigits2. rewrite Hd.
    replace (Z.max (53 + e - 53) (3 - 1024 - 53) - e) with 0 by lia. reflexivity. }
  unfold binary_round_aux. rewrite F.
  cbn [shr_record_of_loc shr_m loc_of_shr_record round_nearest_even].
  rewrite F. cbn [shr_record_of_loc shr_m]. unfold demax, dprec.
  destruct (Z.leb_spec e (1024 - 53)); [reflexivity | lia].
Qed.

(** Promoting the float of a nonzero [int] to [double] gives a nonzero
    finite number. *)
Lemma double_of_float_of_int z :
  in_int z -> z <> 0 ->
  exists s m e, double_of_float (float_of_int z) = S754_finite s m e.
Proof.
  intros Hz Nz. pose proof (digits2_int z Hz Nz) as Hd.
  assert (K : forall s p, Zpos (digits2_pos p) <= 64 ->
              exists s' m e,
                double_of_float (binary_round fprec femax s p 0) = S754_finite s' m e).
  { intros s p Hp.
    destruct (binary_round_int_canonical s p Hp) as (m & e & -> & D & E).
    exists s, (Pos.iter xO m 29), (e - 29).
    unfold double_of_float, binary_round, shl_align.
    replace (fexp dprec demax (Zpos (digits2_pos m) + e) - e) with (Zneg 29)
      by (unfold fexp, emin, dprec, demax; rewrite D; lia).
    replace (fexp dprec demax (Zpos (digits2_pos m) + e)) with (e - 29)
      by (unfold fexp, emin, dprec, demax; rewrite D; lia).
    apply round_aux_canonical_double; [| lia].
    change (Zdigits2 (Zpos (Pos.iter xO m 29)) = 53).
    pose proof (digits2_bounds m) as B. rewrite D in B.
    apply Zdigits2_unique; [lia |]. rewrite iter_xO_mul.
    change (2 ^ (53 - 1)) with (2 ^ (24 - 1) * 2 ^ 29).
    change (2 ^ 53) with (2 ^ 24 * 2 ^ 29). lia. }
  unfold float_of_int, binary_normalize.
  destruct z as [| p | p]; [contradiction | |]; apply K; exact Hd.
Qed.

(** The startup test [getTemp()==0.0] on the float of an [int] is a test of
    that [int]. *)
Lemma sentinel_test z :
  in_int z ->
  SFeqb (double_of_float (float_of_int z)) (S754_zero false) = (z =? 0).
Proof.
  intros Hz. destruct (Z.eqb_spec z 0) as [-> | Nz]; [reflexivity |].
  destruct (double_of_float_of_int z Hz Nz) as (s & m & e & ->).
  destruct s; reflexivity.
Qed.

(** ** [main], case by case *)

Lemma bind_ret_eq {A B} (m : M A) (k : A -> M B) en c a c1 evs1 :
  m en c = Ret a c1 evs1 ->
  bind m k en c = prepend evs1 (k a en c1).
Proof. unfold bind. intros ->. destruct (k a en c1); reflexivity. Qed.

Lemma prepend_prepend {A} e1 e2 (r : result A) :
  prepend e1 (prepend e2 r) = prepend (e1 ++ e2) r.
Proof. destruct r; simpl; rewrite app_assoc; reflexivity. Qed.

Lemma prepend_nil {A} (r : result A) : prepend [] r = r.
Proof. destruct r; reflexivity. Qed.

Ltac run_bind :=
  first
    [ erewrite bind_ret_eq by apply getTemp_spec
    | erewrite bind_ret_eq by apply setFanSpeed_spec
    | erewrite bind_ret_eq by apply to_int_MAX_PWM
    | erewrite bind_ret_eq by reflexivity ].

Ltac exit_case :=
  eexists _, _; split; [reflexivity |];
  cbn [prepend app];
  split; [try reflexivity; destruct (e_temp _ _); reflexivity |];
  split; [try reflexivity; destruct (e_temp _ _); reflexivity |];
  split; [first [left; reflexivity | right; reflexivity] |].

Lemma main_cases n en c :
  if startup_ok en c then
    exists st c' evs,
      control_loop n (mkCtrl 0 0) en (mkCursor (S (reads c)) (S (opens c)))
      = Ret st c' evs /\
      main n en c = Ret st c' (startup_events en c ++ evs)
  else
    exists code evs,
      main n en c = Exit code evs /\
      duties evs = [] /\ pwm_writes evs = [] /\
      (code = EXIT_SUCCESS \/ code = EXIT_FAILURE) /\
      (code = EXIT_SUCCESS <-> e_euid en = 0 /\ 0 < e_fork en).
Proof.
  unfold startup_ok, main.
  run_bind. rewrite prepend_nil.
  destruct (Z.eqb_spec (e_euid en) 0) as [Hu | Hu]; cbn [negb andb].
  2:{ exit_case. split; [discriminate | tauto]. }
  run_bind. rewrite prepend_nil.
  destruct (Z.ltb_spec (e_fork en) 0) as [Hf | Hf].
  { replace (e_fork en =? 0) with false by (symmetry; apply Z.eqb_neq; lia).
    exit_case. split; [discriminate | lia]. }
  destruct (Z.ltb_spec 0 (e_fork en)) as [Hp | Hp].
  { replace (e_fork en =? 0) with false by (symmetry; apply Z.eqb_neq; lia).
    exit_case. tauto. }
  replace (e_fork en =? 0) with true by (symmetry; apply Z.eqb_eq; lia).
  cbn [andb].
  assert (NS : EXIT_FAILURE = EXIT_SUCCESS <-> e_euid en = 0 /\ 0 < e_fork en)
    by (split; [discriminate | lia]).
  do 2 run_bind.
  destruct (e_log en); cbn [negb andb]; [| exit_case; exact NS].
  do 3 run_bind.
  rewrite sentinel_test by apply sensor_value_int.
  destruct (sensor_value (e_temp en (reads c)) =? 0); cbn [negb andb];
    [exit_case; exact NS |].
  run_bind.
  destruct (Z.ltb_spec (e_setsid en) 0) as [Hs | Hs].
  { replace (0 <=? e_setsid en) with false by (symmetry; apply Z.leb_gt; lia).
    cbn [andb]. exit_case. exact NS. }
  replace (0 <=? e_setsid en) with true by (symmetry; apply Z.leb_le; lia).
  run_bind.
  destruct (Z.ltb_spec (e_chdir en) 0) as [Hc | Hc].
  { replace (0 <=? e_chdir en) with false by (symmetry; apply Z.leb_gt; lia).
    cbn [andb]. exit_case. exact NS. }
  replace (0 <=? e_chdir en) with true by (symmetry; apply Z.leb_le; lia).
  cbn [andb].
  do 6 run_bind. cbn [reads opens].
  destruct (control_loop_runs n (mkCtrl 0 0) en (mkCursor (S (reads c)) (S (opens c))))
    as (st & c' & evs & E).
  exists st, c', evs. split; [exact E |]. rewrite E.
  cbn [prepend app]. unfold startup_events. rewrite <- !app_assoc. reflexivity.
Qed.

(** X1. [main] gets to its control loop exactly when it runs as root, is
    the child of the fork, has its log file, reads a temperature other
    than 0, and [setsid] and [chdir] do not fail.  Then its trace is that of
    the startup, with one call [setFanSpeed(maxPwm)] and a sleep of 5
    seconds, followed by the trace of the loop, which starts with both
    variables at 0 on the second read of the sensor. *)
Theorem startup_reaches_loop_iff n en c :
  (startup_ok en c = true <-> exists st c' evs, main n en c = Ret st c' evs) /\
  (forall st c' evs,
     main n en c = Ret st c' evs ->
     exists evs',
       evs = startup_events en c ++ evs' /\
       control_loop n (mkCtrl 0 0) en (mkCursor (S (reads c)) (S (opens c)))
       = Ret st c' evs').
Proof.
  pose proof (main_cases n en c) as H.
  destruct (startup_ok en c).
  - destruct H as (st & c' & evs & L & E). split.
    + split; [| reflexivity]. intros _. eexists _, _, _. exact E.
    + intros st1 c1 evs1 E1. rewrite E in E1. exists evs.
      split; [congruence |]. rewrite L. congruence.
  - destruct H as (code & evs & E & _). split.
    + split; [discriminate |]. intros (st & c' & evs' & E'). congruence.
    + intros st1 c1 evs1 E1. congruence.
Qed.

Lemma startup_reaches_loop_iff_witness :
  exists st c' evs,
    main 1 (daemon_env [Readable "48"; Readable "75"] (fun _ => true)) start
    = Ret st c' evs.
Proof.
  apply (startup_reaches_loop_iff 1
           (daemon_env [Readable "48"; Readable "75"] (fun _ => true)) start).
  reflexivity.
Defined.

(** X2. Whenever [main] exits, [setFanSpeed] has not been called and
    nothing has been written to pwm.0.  The exit status is [EXIT_SUCCESS] or
    [EXIT_FAILURE], and it is [EXIT_SUCCESS] only for the root process that
    is the parent of the fork. *)
Theorem main_exit_leaves_fan_alone n en c code evs :
  main n en c = Exit code evs ->
  duties evs = [] /\ pwm_writes evs = [] /\
  (code = EXIT_SUCCESS \/ code = EXIT_FAILURE) /\
  (code = EXIT_SUCCESS <-> e_euid en = 0 /\ 0 < e_fork en).
Proof.
  intros E. pose proof (main_cases n en c) as H.
  destruct (startup_ok en c).
  - destruct H as (st & c' & evs' & _ & E'). rewrite E in E'. discriminate.
  - destruct H as (code' & evs' & E' & H). rewrite E in E'.
    injection E' as <- <-. exact H.
Qed.

Lemma main_exit_leaves_fan_alone_witness :
  duties [Fprintf stderr "Must be run as root\n" []] = [] /\
  pwm_writes [Fprintf stderr "Must be run as root\n" []] = [] /\
  (1 = EXIT_SUCCESS \/ 1 = EXIT_FAILURE) /\
  (1 = EXIT_SUCCESS <-> 1000 = 0 /\ 0 < 0).
Proof.
  apply (main_exit_leaves_fan_alone 2
           (mkEnv 1000 0 true 1 0 (fun _ => Readable "48") (fun _ => true)) start).
  reflexivity.
Defined.

(** X3. No run of [main] ends in an undefined conversion to [int]: it is
    either still running after the iterations looked at, or it has exited. *)
Theorem main_never_undefined n en c :
  (exists st c' evs, main n en c = Ret st c' evs) \/
  (exists code evs, main n en c = Exit code evs).
Proof.
  pose proof (main_cases n en c) as H.
  destruct (startup_ok en c).
  - destruct H as (st & c' & evs & _ & E). left. eexists _, _, _. exact E.
  - destruct H as (code & evs & E & _). right. eexists _, _. exact E.
Qed.

(** ** Messages on stderr *)

Lemma all_bind (P : event -> Prop) {A B} (m : M A) (k : A -> M B) en c :
  Forall P (events (m en c)) ->
  (forall a c1 evs1, m en c = Ret a c1 evs1 -> Forall P (events (k a en c1))) ->
  Forall P (events (bind m k en c)).
Proof.
  unfold bind. intros Hm Hk.
  destruct (m en c) as [a c1 evs1 | code evs1 | evs1]; try exact Hm.
  specialize (Hk a c1 evs1 eq_refl).
  destruct (k a en c1); cbn [events] in *; apply Forall_app; split; assumption.
Qed.

Lemma stderr_known_getTemp en c : Forall stderr_known (events (getTemp en c)).
Proof.
  rewrite getTemp_spec. cbn [events].
  destruct (e_temp en (reads c)); [| constructor].
  apply Forall_cons; [simpl; tauto | constructor].
Qed.

Lemma stderr_known_fan ok d : Forall stderr_known (fan_events ok d).
Proof.
  destruct ok; (apply Forall_cons; [exact I |]);
    (apply Forall_cons; [simpl; tauto | constructor]).
Qed.

Lemma stderr_known_setFanSpeed d en c :
  Forall stderr_known (events (setFanSpeed d en c)).
Proof. rewrite setFanSpeed_spec. apply stderr_known_fan. Qed.

Lemma stderr_known_tick st en c : Forall stderr_known (events (tick st en c)).
Proof.
  rewrite tick_spec. cbn [events]. apply Forall_app. split.
  - pose proof (stderr_known_getTemp en c) as G. rewrite getTemp_spec in G. exact G.
  - unfold drive_events. destruct (_ && _);
      repeat (apply Forall_app; split); try apply stderr_known_fan;
      (apply Forall_cons; [exact I | constructor]).
Qed.

Lemma stderr_known_control_loop n : forall st en c,
  Forall stderr_known (events (control_loop n st en c)).
Proof.
  induction n as [| n IH]; intros st en c; cbn [control_loop].
  - constructor.
  - apply all_bind; [apply stderr_known_tick |]. intros. apply IH.
Qed.

Ltac stderr_walk :=
  repeat first
    [ apply stderr_known_getTemp
    | apply stderr_known_control_loop
    | apply stderr_known_setFanSpeed
    | apply all_bind; [| intros ? ? ? ?]
    | match goal with
      | |- Forall _ (events ((if ?b then _ else _) _ _)) => destruct b
      end
    | solve [constructor]
    | solve [apply Forall_cons; [simpl; tauto | constructor]] ].

(** X4. Whatever [main] prints on stderr is one of four messages: not
    root, no log file, no temperature file, no pwm device.  The message of
    the clamp in the interpolation is never printed: for the temperatures
    [getTemp] delivers the interpolated value is never outside
    [MIN_PWM .. MAX_PWM]. *)
Theorem stderr_messages n en c :
  Forall stderr_known (events (main n en c)).
Proof. unfold main. stderr_walk. Qed.

(** ** The controller state *)

Lemma tick_keeps_ctrl_ok st en c :
  ctrl_ok st ->
  exists st' c' evs, tick st en c = Ret st' c' evs /\ ctrl_ok st'.
Proof.
  intros [R P]. rewrite tick_spec. eexists _, _, _. split; [reflexivity |].
  split; cbn [runOn prevP]; [| apply pwm_int_ok].
  unfold pwm_int, RUNONLOOPS, RUNONTIME, LOOPTIME in *.
  change (30 / 2) with 15 in *.
  destruct (_ <? LOW_TEMP); [destruct (Z.ltb_spec 0 (runOn st)) |
                             destruct (HIGH_TEMP <? _)]; cbn [snd]; lia.
Qed.

Lemma control_loop_keeps_ctrl_ok n : forall st en c st' c' evs,
  ctrl_ok st -> control_loop n st en c = Ret st' c' evs -> ctrl_ok st'.
Proof.
  induction n as [| n IH]; intros st en c st' c' evs Hst; cbn [control_loop].
  - intros E. injection E as <- _ _. exact Hst.
  - destruct (tick_keeps_ctrl_ok st en c Hst) as (st1 & c1 & evs1 & T & H1).
    rewrite (bind_ret_eq _ _ _ _ _ _ _ T).
    destruct (control_loop n st1 en c1) as [st2 c2 evs2 | |] eqn:L; try discriminate.
    intros E. injection E as <- _ _. exact (IH _ _ _ _ _ _ H1 L).
Qed.

(** X5. After any number of iterations of [main] the run-on counter is
    between 0 and [RUNONLOOPS] and the previous duty is 0 or within
    [minPwm .. maxPwm]. *)
Theorem controller_state_invariant n en c st c' evs :
  main n en c = Ret st c' evs ->
  0 <= runOn st <= RUNONLOOPS /\ (prevP st = 0 \/ minPwm <= prevP st <= maxPwm).
Proof.
  intros E. pose proof (main_cases n en c) as H.
  destruct (startup_ok en c).
  - destruct H as (st1 & c1 & evs1 & L & E'). rewrite E in E'.
    injection E' as -> -> _.
    apply (control_loop_keeps_ctrl_ok n (mkCtrl 0 0) _ _ _ _ _) in L; [exact L |].
    split; cbn; [unfold RUNONLOOPS, RUNONTIME, LOOPTIME | left; reflexivity].
    change (30 / 2) with 15. lia.
  - destruct H as (code' & evs' & E' & _). rewrite E in E'. discriminate.
Qed.

Lemma controller_state_invariant_witness :
  0 <= runOn (mkCtrl RUNONLOOPS maxPwm) <= RUNONLOOPS /\
  (prevP (mkCtrl RUNONLOOPS maxPwm) = 0 \/
   minPwm <= prevP (mkCtrl RUNONLOOPS maxPwm) <= maxPwm).
Proof.
  apply (controller_state_invariant 1
           (daemon_env [Readable "48"; Readable "75"] (fun _ => true)) start
           (mkCtrl RUNONLOOPS maxPwm) (mkCursor 2 3)
           (startup_events (daemon_env [Readable "48"; Readable "75"] (fun _ => true)) start
            ++ fan_events true kickPwm ++ [Usleep KICK_TIME]
            ++ fan_events true maxPwm ++ [Sleep LOOPTIME])).
  reflexivity.
Defined.

(** ** Run-on *)

(** X6. While the sensor stays below [LOW_TEMP], a run-on counter of [r]
    keeps the fan at [minPwm] for exactly [r] iterations (after one kick if
    it was off), and from then on the fan is off: after [n] such iterations
    the counter is [max 0 (r - n)] and the duties sent are [minPwm],
    [min n r] times, then 0, [n - r] times. *)
Theorem run_on_countdown n : forall st en c,
  0 <= runOn st ->
  cold_for en c n ->
  exists c' evs,
    control_loop n st en c
    = Ret (mkCtrl (Z.max 0 (runOn st - Z.of_nat n))
                  (match n with
                   | O => prevP st
                   | S _ => if Z.of_nat n <=? runOn st then minPwm else 0
                   end)) c' evs /\
    duties evs
    = (if (0 <? Z.of_nat n) && (0 <? runOn st) && (prevP st =? 0)
       then [kickPwm] else [])
      ++ repeat minPwm (Z.to_nat (Z.min (Z.of_nat n) (runOn st)))
      ++ repeat 0 (Z.to_nat (Z.of_nat n - runOn st)).
Proof.
  induction n as [| n IH]; intros st en c R Cold.
  - cbn [control_loop]. eexists _, _. split.
    + unfold ret. destruct st as [r p]. cbn [runOn prevP] in *.
      replace (Z.max 0 (r - Z.of_nat 0)) with r by lia. reflexivity.
    + cbn [events duties Z.of_nat Z.ltb Z.compare andb app].
      replace (Z.to_nat (Z.min 0 (runOn st))) with 0%nat by lia.
      replace (Z.to_nat (0 - runOn st)) with 0%nat by lia. reflexivity.
  - cbn [control_loop].
    rewrite (bind_ret_eq _ _ _ _ _ _ _ (tick_spec st en c)).
    assert (Z0 : sensor_value (e_temp en (reads c)) < LOW_TEMP)
      by (apply Cold; lia).
    unfold pwm_int. destruct (Z.ltb_spec (sensor_value (e_temp en (reads c))) LOW_TEMP);
      [| lia].
    destruct (Z.ltb_spec 0 (runOn st)) as [Rp | Rz]; cbn [fst snd].
    + (* the counter is positive: the fan runs at minPwm *)
      match goal with |- context [control_loop n ?s en ?k] =>
        destruct (IH s en k) as (c' & evs & -> & D) end.
      { cbn [runOn]. lia. }
      { intros i Hi. cbn [reads] in Hi. apply Cold. lia. }
      cbn [runOn prevP] in *. eexists _, _. split.
      * cbn [prepend]. f_equal. f_equal; [lia |].
        destruct n as [| n'].
        -- destruct (Z.leb_spec (Z.of_nat 1) (runOn st)); [reflexivity | lia].
        -- destruct (Z.leb_spec (Z.of_nat (S n')) (runOn st - 1)),
             (Z.leb_spec (Z.of_nat (S (S n'))) (runOn st)); try reflexivity; lia.
      * rewrite !duties_app, duties_sensor, duties_drive, D.
        change (0 <? minPwm) with true. change (minPwm =? 0) with false.
        rewrite andb_false_r. cbn [andb app].
        replace (0 <? Z.of_nat (S n)) with true by (symmetry; apply Z.ltb_lt; lia).
        cbn [andb].
        replace (Z.to_nat (Z.min (Z.of_nat (S n)) (runOn st)))
          with (S (Z.to_nat (Z.min (Z.of_nat n) (runOn st - 1)))) by lia.
        replace (Z.of_nat (S n) - runOn st) with (Z.of_nat n - (runOn st - 1)) by lia.
        destruct (prevP st =? 0); reflexivity.
    + (* the counter has run out: the fan is off *)
      match goal with |- context [control_loop n ?s en ?k] =>
        destruct (IH s en k) as (c' & evs & -> & D) end.
      { cbn [runOn]. lia. }
      { intros i Hi. cbn [reads] in Hi. apply Cold. lia. }
      cbn [runOn prevP] in *. eexists _, _. split.
      * cbn [prepend]. f_equal. f_equal; [lia |].
        destruct (Z.leb_spec (Z.of_nat (S n)) (runOn st)); [lia |].
        destruct n as [| n']; [reflexivity |].
        destruct (Z.leb_spec (Z.of_nat (S n')) (runOn st)); [lia | reflexivity].
      * rewrite !duties_app, duties_sensor, duties_drive, D.
        cbn [Z.ltb Z.compare andb app].
        assert (R0 : runOn st = 0) by lia. rewrite R0.
        rewrite andb_false_r. cbn [andb Z.ltb Z.compare app].
        replace (Z.to_nat (Z.min (Z.of_nat n) 0)) with 0%nat by lia.
        replace (Z.to_nat (Z.min (Z.of_nat (S n)) 0)) with 0%nat by lia.
        replace (Z.to_nat (Z.of_nat (S n) - 0)) with (S (Z.to_nat (Z.of_nat n - 0))) by lia.
        reflexivity.
Qed.

Lemma run_on_countdown_witness :
  exists c' evs,
    control_loop 3 (mkCtrl 2 0)
      (daemon_env [Readable "40"; Readable "41"; Readable "-5"] (fun _ => true)) start
    = Ret (mkCtrl 0 0) c' evs /\
    duties evs = [kickPwm; minPwm; minPwm; 0].
Proof.
  apply (run_on_countdown 3 (mkCtrl 2 0)
           (daemon_env [Readable "40"; Readable "41"; Readable "-5"] (fun _ => true))
           start).
  - simpl. lia.
  - intros i Hi. unfold start in Hi. cbn [reads] in Hi.
    destruct i as [| [| [| i]]]; [reflexivity | reflexivity | reflexivity | lia].
Defined.

(** ** Kicks over a whole run *)

Lemma last_cons_default (d : Z) (a : list Z) x y : last (d :: a) x = last (d :: a) y.
Proof.
  revert d. induction a as [| e a IH]; intros d; [reflexivity |].
  change (last (e :: a) x = last (e :: a) y). apply IH.
Qed.

Lemma kicked_app prev a b :
  kicked prev a -> kicked (last a prev) b -> kicked prev (a ++ b).
Proof.
  revert prev. induction a as [| d a IH]; intros prev Ha Hb; [exact Hb |].
  destruct Ha as [K Ha]. split; [exact K |]. apply IH; [exact Ha |].
  destruct a as [| e a]; [exact Hb |].
  rewrite (last_cons_default e a d prev). exact Hb.
Qed.

Lemma control_loop_kicked n : forall st en c,
  exists st' c' evs,
    control_loop n st en c = Ret st' c' evs /\ kicked (prevP st) (duties evs).
Proof.
  induction n as [| n IH]; intros st en c; cbn [control_loop].
  - eexists _, _, _. split; [reflexivity | exact I].
  - rewrite (bind_ret_eq _ _ _ _ _ _ _ (tick_spec st en c)).
    set (p := fst (pwm_int (sensor_value (e_temp en (reads c))) (runOn st))).
    match goal with |- context [control_loop n ?s en ?k] =>
      destruct (IH s en k) as (st' & c' & evs & -> & K) end.
    cbn [prevP] in K. eexists _, _, _. split; [reflexivity |].
    rewrite !duties_app, duties_sensor, duties_drive. cbn [app]. fold p.
    destruct (Z.ltb_spec 0 p) as [Pp | Pp]; destruct (Z.eqb_spec (prevP st) 0) as [P0 | P0];
      cbn [andb app kicked]; repeat split; try exact K; intros; try lia.
    unfold kickPwm in *. lia.
Qed.

(** X7. In every run of [main] the duties sent are the warm-up pulse
    [maxPwm] and then a list in which the fan is never taken from 0 to a
    positive duty without the kick in between: a positive duty that comes
    first or follows a 0 is [kickPwm]. *)
Theorem kick_before_every_start n en c st c' evs :
  main n en c = Ret st c' evs ->
  exists ds, duties evs = maxPwm :: ds /\ kicked 0 ds.
Proof.
  intros E. pose proof (main_cases n en c) as H.
  destruct (startup_ok en c).
  - destruct H as (st1 & c1 & evs1 & L & E'). rewrite E in E'.
    assert (Ev : evs = startup_events en c ++ evs1) by congruence.
    destruct (control_loop_kicked n (mkCtrl 0 0) en (mkCursor (S (reads c)) (S (opens c))))
      as (st2 & c2 & evs2 & L2 & K).
    rewrite L in L2. injection L2 as _ _ <-.
    exists (duties evs1). split; [| exact K].
    rewrite Ev. unfold startup_events. rewrite !duties_app, duties_sensor, duties_fan. reflexivity.
  - destruct H as (code' & evs' & E' & _). rewrite E in E'. discriminate.
Qed.

Lemma kick_before_every_start_witness :
  exists ds,
    duties (startup_events (daemon_env [Readable "48"; Readable "75"] (fun _ => true)) start
            ++ fan_events true kickPwm ++ [Usleep KICK_TIME]
            ++ fan_events true maxPwm ++ [Sleep LOOPTIME])
    = maxPwm :: ds /\ kicked 0 ds.
Proof.
  apply (kick_before_every_start 1
           (daemon_env [Readable "48"; Readable "75"] (fun _ => true)) start
           (mkCtrl RUNONLOOPS maxPwm) (mkCursor 2 3)).
  reflexivity.
Defined.

(** ** Fan off, fan on *)

(** X8. An iteration leaves the fan off exactly when the temperature read
    is below [LOW_TEMP] and the run-on counter is not positive; at
    [LOW_TEMP] and above the duty is at least [minPwm]. *)
Theorem fan_off_iff st en c :
  exists st' c' evs,
    tick st en c = Ret st' c' evs /\
    (prevP st' = 0 <->
     sensor_value (e_temp en (reads c)) < LOW_TEMP /\ runOn st <= 0) /\
    (LOW_TEMP <= sensor_value (e_temp en (reads c)) -> minPwm <= prevP st').
Proof.
  rewrite tick_spec. eexists _, _, _. split; [reflexivity |]. cbn [prevP].
  pose proof (pwm_int_ok (sensor_value (e_temp en (reads c))) (runOn st)) as K.
  revert K. unfold pwm_int, duty_ok, minPwm, maxPwm, LOW_TEMP, HIGH_TEMP.
  destruct (Z.ltb_spec (sensor_value (e_temp en (reads c))) 55);
    [destruct (Z.ltb_spec 0 (runOn st)) |
     destruct (Z.ltb_spec 75 (sensor_value (e_temp en (reads c))))];
    cbn [fst]; intros K; (split; [split |]); try lia.
  all: assert (0 <= 5 * (sensor_value (e_temp en (reads c)) - 55) / 2)
         by (apply Z.div_pos; lia); lia.
Qed.

Lemma pwm_int_monotone z1 z2 r :
  z1 <= z2 -> fst (pwm_int z1 r) <= fst (pwm_int z2 r).
Proof.
  intros H.
  assert (Lo : forall z, 55 <= z -> 0 <= 5 * (z - 55) / 2)
    by (intros; apply Z.div_pos; lia).
  assert (Hi : forall z, z <= 75 -> 5 * (z - 55) / 2 <= 50)
    by (intros; apply Z.div_le_upper_bound; lia).
  assert (Mo : 5 * (z1 - 55) / 2 <= 5 * (z2 - 55) / 2)
    by (apply Z.div_le_mono; lia).
  pose proof (Lo z1). pose proof (Lo z2). pose proof (Hi z1). pose proof (Hi z2).
  unfold pwm_int, minPwm, maxPwm, LOW_TEMP, HIGH_TEMP.
  destruct (Z.ltb_spec z1 55), (Z.ltb_spec z2 55), (Z.ltb_spec 75 z1), (Z.ltb_spec 75 z2),
    (Z.ltb_spec 0 r); cbn [fst]; lia.
Qed.

(** X9. With the same controller state, a higher temperature never gives a
    lower duty, over the whole range of [int] temperatures. *)
Theorem duty_monotone_in_temperature z1 z2 st en c :
  in_int z1 -> in_int z2 -> z1 <= z2 ->
  exists r1 p1 c1 evs1 r2 p2 c2 evs2,
    step (float_of_int z1) st en c = Ret (mkCtrl r1 p1) c1 evs1 /\
    step (float_of_int z2) st en c = Ret (mkCtrl r2 p2) c2 evs2 /\
    p1 <= p2.
Proof.
  intros I1 I2 H.
  destruct (step_int z1 st en c I1) as (c1 & evs1 & E1 & _).
  destruct (step_int z2 st en c I2) as (c2 & evs2 & E2 & _).
  eexists _, _, c1, evs1, _, _, c2, evs2.
  split; [exact E1 |]. split; [exact E2 |]. apply pwm_int_monotone. exact H.
Qed.

Lemma duty_monotone_in_temperature_witness :
  exists r1 p1 c1 evs1 r2 p2 c2 evs2,
    step (float_of_int (-10)) (mkCtrl 3 0) (daemon_env [] (fun _ => true)) start
    = Ret (mkCtrl r1 p1) c1 evs1 /\
    step (float_of_int 90) (mkCtrl 3 0) (daemon_env [] (fun _ => true)) start
    = Ret (mkCtrl r2 p2) c2 evs2 /\
    p1 <= p2.
Proof.
  apply (duty_monotone_in_temperature (-10) 90);
    unfold in_int, INT_MIN, INT_MAX; lia.
Defined.

(** ** What reaches the device *)

Lemma pwm_writes_app a b : pwm_writes (a ++ b) = pwm_writes a ++ pwm_writes b.
Proof.
  induction a as [| e a IH]; [reflexivity |].
  destruct e as [| s fmt args | | | | |]; simpl; try exact IH.
  destruct s; simpl; rewrite IH, ?app_assoc; reflexivity.
Qed.

Lemma pwm_writes_sensor f : pwm_writes (sensor_events f) = [].
Proof. destruct f; reflexivity. Qed.

Lemma pwm_writes_fan ok d : pwm_writes (fan_events ok d) = if ok then [d] else [].
Proof. destruct ok; reflexivity. Qed.

Lemma pwm_writes_drive en k prev p :
  (forall i, e_pwm en i = true) ->
  pwm_writes (drive_events en k prev p) = duties (drive_events en k prev p).
Proof.
  intros H. unfold drive_events.
  destruct (_ && _); rewrite !pwm_writes_app, !duties_app, !pwm_writes_fan, !duties_fan,
    !H; reflexivity.
Qed.

Lemma control_loop_writes n : forall st en c,
  (forall i, e_pwm en i = true) ->
  pwm_writes (events (control_loop n st en c)) = duties (events (control_loop n st en c)).
Proof.
  induction n as [| n IH]; intros st en c H; cbn [control_loop]; [reflexivity |].
  rewrite (bind_ret_eq _ _ _ _ _ _ _ (tick_spec st en c)).
  match goal with |- context [control_loop n ?s en ?k] =>
    specialize (IH s en k H); destruct (control_loop n s en k) end;
    cbn [prepend events] in *;
    rewrite !pwm_writes_app, !duties_app, pwm_writes_sensor, duties_sensor,
      pwm_writes_drive, IH by exact H; reflexivity.
Qed.

(** X10. When pwm.0 opens every time, what [main] writes to it is exactly
    the duties [setFanSpeed] was called with, each once and in order. *)
Theorem device_gets_every_command n en c :
  (forall i, e_pwm en i = true) ->
  pwm_writes (events (main n en c)) = duties (events (main n en c)).
Proof.
  intros H. pose proof (main_cases n en c) as K.
  destruct (startup_ok en c).
  - destruct K as (st & c' & evs & L & ->). cbn [events].
    pose proof (control_loop_writes n (mkCtrl 0 0) en
                  (mkCursor (S (reads c)) (S (opens c))) H) as W.
    rewrite L in W. cbn [events] in W.
    unfold startup_events.
    rewrite !pwm_writes_app, !duties_app, pwm_writes_sensor, duties_sensor,
      pwm_writes_fan, duties_fan, H, W. reflexivity.
  - destruct K as (code & evs & -> & D & W & _). cbn [events]. congruence.
Qed.

Lemma device_gets_every_command_witness :
  pwm_writes (events (main 2 (daemon_env [Readable "48"; Readable "60"; Readable "40"]
                                (fun _ => true)) start))
  = duties (events (main 2 (daemon_env [Readable "48"; Readable "60"; Readable "40"]
                              (fun _ => true)) start)).
Proof.
  apply (device_gets_every_command 2
           (daemon_env [Readable "48"; Readable "60"; Readable "40"] (fun _ => true))
           start).
  reflexivity.
Defined.

(** ** Reading numerals *)

Lemma scan_digits_end rest acc :
  ends_number rest = true -> scan_digits rest acc = acc.
Proof.
  destruct rest as [| ch rest]; [reflexivity |]. simpl.
  destruct (digit_of ch); [discriminate | reflexivity].
Qed.

Ltac eval_digit :=
  match goal with
  | |- context [digit_of ?ch] =>
      let v := eval vm_compute in (digit_of ch) in
      change (digit_of ch) with v; cbv iota beta
  end.

Lemma scan_digits_acc d : forall acc rest,
  ends_number rest = true ->
  scan_digits (DecimalString.NilEmpty.string_of_uint d ++ rest) (Some (Zpos acc))
  = Some (Zpos (Pos.of_uint_acc d acc)).
Proof.
  induction d; intros acc rest E;
    cbn [DecimalString.NilEmpty.string_of_uint append scan_digits Pos.of_uint_acc];
    [apply scan_digits_end; exact E | ..];
    eval_digit; rewrite <- (IHd _ rest E); f_equal; f_equal; lia.
Qed.

(** The digits of a numeral, scanned from nothing, give its value. *)
Lemma scan_digits_uint d rest :
  d <> Decimal.Nil -> ends_number rest = true ->
  scan_digits (DecimalString.NilEmpty.string_of_uint d ++ rest) None = Some (Z.of_uint d).
Proof.
  assert (Z0 : forall d rest, ends_number rest = true ->
               scan_digits (DecimalString.NilEmpty.string_of_uint d ++ rest) (Some 0) = Some (Z.of_uint d)).
  { clear. induction d; intros rest E;
      cbn [DecimalString.NilEmpty.string_of_uint append scan_digits];
      [apply scan_digits_end; exact E | ..]; eval_digit.
    - apply IHd. exact E.
    - apply (scan_digits_acc d 1 rest E).
    - apply (scan_digits_acc d 2 rest E).
    - apply (scan_digits_acc d 3 rest E).
    - apply (scan_digits_acc d 4 rest E).
    - apply (scan_digits_acc d 5 rest E).
    - apply (scan_digits_acc d 6 rest E).
    - apply (scan_digits_acc d 7 rest E).
    - apply (scan_digits_acc d 8 rest E).
    - apply (scan_digits_acc d 9 rest E). }
  intros N E. pose proof (Z0 d rest E) as H.
  destruct d; [contradiction | ..];
    cbn [DecimalString.NilEmpty.string_of_uint append scan_digits] in *; exact H.
Qed.

Lemma skip_space_all ws s :
  all_space ws = true -> skip_space (ws ++ s) = skip_space s.
Proof.
  induction ws as [| ch ws IH]; [reflexivity |]. simpl.
  destruct (isspace ch); [exact IH | discriminate].
Qed.

Lemma stored_int_id z : in_int z -> stored_int z = z.
Proof.
  unfold in_int, stored_int, wrap_int, INT_MIN, INT_MAX, LONG_MIN, LONG_MAX. intros H.
  replace (Z.max (- 2 ^ 63) (Z.min (2 ^ 63 - 1) z)) with z by lia.
  rewrite Z.mod_small by lia. lia.
Qed.

(** A decimal numeral, after any white space and up to the first character
    that is not a digit, is converted, and what is stored is [stored_int] of
    its value. *)
Lemma fscanf_d_numeral ws (d : Decimal.int) rest :
  all_space ws = true -> digits_of d <> Decimal.Nil -> ends_number rest = true ->
  fscanf_d (ws ++ numeral d ++ rest) = Converted (stored_int (Z.of_int d)).
Proof.
  intros W N E. unfold fscanf_d. rewrite skip_space_all by exact W.
  destruct d as [u | u]; unfold numeral; cbn [digits_of] in N.
  - cbn [DecimalString.NilEmpty.string_of_int Z.of_int].
    pose proof (scan_digits_uint u rest N E) as S.
    destruct u; [contradiction | ..];
      cbn [DecimalString.NilEmpty.string_of_uint append skip_space] in *;
      match goal with |- context [isspace ?ch] =>
        change (isspace ch) with false; cbv iota end;
      match goal with |- context [Ascii.eqb ?a "-"] =>
        change (Ascii.eqb a "-") with false; cbv iota end;
      match goal with |- context [Ascii.eqb ?a "+"] =>
        change (Ascii.eqb a "+") with false; cbv iota end;
      rewrite S; reflexivity.
  - cbn [DecimalString.NilEmpty.string_of_int Z.of_int append skip_space].
    change (isspace "-") with false. cbv iota.
    change (Ascii.eqb "-" "-") with true. cbv iota.
    rewrite (scan_digits_uint u rest N E). reflexivity.
Qed.

(** X11. A sensor file made of white space, a decimal numeral whose value
    fits an [int] (with a minus sign or not, with leading zeros or not) and
    then nothing or anything that does not start with a digit makes
    [getTemp] return the float of the numeral's value, and print nothing. *)
Theorem getTemp_reads_numeral en c ws (d : Decimal.int) rest :
  all_space ws = true -> digits_of d <> Decimal.Nil -> ends_number rest = true ->
  in_int (Z.of_int d) ->
  e_temp en (reads c) = Readable (ws ++ numeral d ++ rest) ->
  getTemp en c
  = Ret (float_of_int (Z.of_int d)) (mkCursor (S (reads c)) (opens c)) [].
Proof.
  intros W N E I F. rewrite getTemp_spec, F. cbn [sensor_value sensor_events].
  rewrite fscanf_d_numeral, stored_int_id by assumption. reflexivity.
Qed.

Lemma getTemp_reads_numeral_witness :
  getTemp (daemon_env [Readable "  -007 C"] (fun _ => true)) start
  = Ret (float_of_int
           (Z.of_int (Decimal.Neg (Decimal.D0 (Decimal.D0 (Decimal.D7 Decimal.Nil))))))
        (mkCursor 1 0) [].
Proof.
  apply (getTemp_reads_numeral (daemon_env [Readable "  -007 C"] (fun _ => true)) start
           "  " (Decimal.Neg (Decimal.D0 (Decimal.D0 (Decimal.D7 Decimal.Nil)))) " C");
    try reflexivity; [discriminate |].
  unfold in_int, INT_MIN, INT_MAX. simpl. lia.
Defined.

(** X12. Printing and reading back: a sensor file that holds the decimal
    text of an [int] [z], followed by nothing or by anything that does not
    start with a digit (a newline, say), makes [getTemp] return the float of
    [z]. *)
Theorem getTemp_reads_back en c z rest :
  in_int z -> ends_number rest = true ->
  e_temp en (reads c) = Readable (numeral (Z.to_int z) ++ rest) ->
  getTemp en c = Ret (float_of_int z) (mkCursor (S (reads c)) (opens c)) [].
Proof.
  intros I E F. rewrite getTemp_spec, F. cbn [sensor_value sensor_events].
  assert (N : digits_of (Z.to_int z) <> Decimal.Nil)
    by (destruct z; cbn [Z.to_int digits_of]; [discriminate | |];
        apply DecimalPos.Unsigned.to_uint_nonnil).
  pose proof (fscanf_d_numeral "" (Z.to_int z) rest eq_refl N E) as P.
  change ("" ++ numeral (Z.to_int z) ++ rest)%string
    with (numeral (Z.to_int z) ++ rest)%string in P.
  rewrite P, DecimalZ.of_to, stored_int_id by exact I. reflexivity.
Qed.

Lemma getTemp_reads_back_witness :
  getTemp (daemon_env [Readable (numeral (Z.to_int 61) ++ String "010"%char "")] (fun _ => true)) start
  = Ret (float_of_int 61) (mkCursor 1 0) [].
Proof.
  apply (getTemp_reads_back (daemon_env [Readable (numeral (Z.to_int 61) ++ String "010"%char "")] (fun _ => true)) start 61
           (String "010"%char "")); try reflexivity.
  unfold in_int, INT_MIN, INT_MAX. lia.
Defined.

(** ** What the daemon leaves behind *)

Lemma stderr_output_closed evs : stderr_output false evs = [].
Proof.
  induction evs as [| e evs IH]; [reflexivity |].
  destruct e as [| s fmt args | | | fd | |]; cbn [stderr_output]; try exact IH.
  - destruct s; exact IH.
  - destruct (fd =? 2); exact IH.
Qed.

Lemma log_output_app a b : log_output (a ++ b) = log_output a ++ log_output b.
Proof.
  induction a as [| e a IH]; [reflexivity |].
  destruct e as [| s fmt args | | | | |]; simpl; try exact IH.
  destruct s; simpl; rewrite ?IH; reflexivity.
Qed.

Lemma log_output_sensor f : log_output (sensor_events f) = [].
Proof. destruct f; reflexivity. Qed.

Lemma log_output_fan ok d : log_output (fan_events ok d) = [].
Proof. destruct ok; reflexivity. Qed.

Lemma log_output_control_loop n : forall st en c,
  log_output (events (control_loop n st en c)) = [].
Proof.
  induction n as [| n IH]; intros st en c; cbn [control_loop]; [reflexivity |].
  rewrite (bind_ret_eq _ _ _ _ _ _ _ (tick_spec st en c)).
  match goal with |- context [control_loop n ?s en ?k] =>
    specialize (IH s en k); destruct (control_loop n s en k) end;
    cbn [prepend events] in *;
    rewrite !log_output_app, log_output_sensor, IH; unfold drive_events;
    destruct (_ && _); rewrite !log_output_app, !log_output_fan; reflexivity.
Qed.

(** X13. Once [main] is in its control loop, whatever it has printed on
    stderr went to a closed descriptor, and the log file holds the startup
    line and nothing else: a sensor or pwm failure in the loop leaves no
    record. *)
Theorem daemon_leaves_no_record n en c st c' evs :
  main n en c = Ret st c' evs ->
  stderr_output true evs = [] /\ log_output evs = ["pfand started\n"%string].
Proof.
  intros E. pose proof (main_cases n en c) as H.
  destruct (startup_ok en c) eqn:Ok.
  - destruct H as (st1 & c1 & evs1 & L & E'). rewrite E in E'.
    assert (Ev : evs = startup_events en c ++ evs1) by congruence.
    assert (S0 : sensor_events (e_temp en (reads c)) = []).
    { unfold startup_ok in Ok. destruct (e_temp en (reads c)); [| reflexivity].
      cbn [sensor_value Z.eqb negb] in Ok. rewrite !andb_false_r in Ok.
      cbn [andb] in Ok. discriminate. }
    pose proof (log_output_control_loop n (mkCtrl 0 0) en
                  (mkCursor (S (reads c)) (S (opens c)))) as LL.
    rewrite L in LL. cbn [events] in LL.
    rewrite Ev. unfold startup_events. rewrite S0. split.
    + cbn [app stderr_output Z.eqb]. unfold fan_events. cbn [app stderr_output].
      destruct (e_pwm en (opens c)); cbn [stderr_output]; apply stderr_output_closed.
    + rewrite !log_output_app, log_output_fan, LL. reflexivity.
  - destruct H as (code & evs' & E' & _). rewrite E in E'. discriminate.
Qed.

Lemma daemon_leaves_no_record_witness :
  stderr_output true
    (startup_events (daemon_env [Readable "48"; Unreadable] (fun _ => false)) start
     ++ [Fprintf stderr "failed to open temperature file\n" []]
     ++ fan_events false 0 ++ [Sleep LOOPTIME]) = [] /\
  log_output
    (startup_events (daemon_env [Readable "48"; Unreadable] (fun _ => false)) start
     ++ [Fprintf stderr "failed to open temperature file\n" []]
     ++ fan_events false 0 ++ [Sleep LOOPTIME]) = ["pfand started\n"%string].
Proof.
  apply (daemon_leaves_no_record 1
           (daemon_env [Readable "48"; Unreadable] (fun _ => false)) start
           (mkCtrl 0 0) (mkCursor 2 2)).
  reflexivity.
Defined.
